(** * SubManager: a shallow embedding of the reconciliation core

    The development follows the Python sources module by module:
    [models.py], [config.py], [github_client.py], [subscription_manager.py]
    and [promotion.py].  Sets of usernames are [gset string], Python dicts
    are [gmap]s (or insertion-ordered association lists where the iteration
    order is observable), exceptions are a sum type, and the network and the
    clock are an explicit environment threaded through the client. *)

From Stdlib Require Import ZArith Lia List Sorting.Sorted.
From stdpp Require Import base gmap strings list sorting fin_maps.

Local Open Scope Z_scope.

(* stdpp's solvers clear hypotheses by name; the notice is harmless. *)
#[local] Set Warnings "-clear-no-such-hyp".

(** ** Exceptions and fallible results *)

Inductive Exn : Type :=
  | ClientResponseError (status : Z)
  | ClientError
  | TypeError
  | KeyError (key : string)
  | ValueError.

Inductive Outcome (A : Type) : Type :=
  | Ok (a : A)
  | Raise (e : Exn).
Arguments Ok {A} a.
Arguments Raise {A} e.

#[global] Instance Outcome_ret : MRet Outcome := fun A a => Ok a.
#[global] Instance Outcome_bind : MBind Outcome := fun A B k m =>
  match m with
  | Ok a => k a
  | Raise e => Raise e
  end.

(** ** models.py *)

Module Models.

(** [datetime] values are naive timestamps with microsecond resolution; they
    are represented by the number of microseconds since the epoch, and a
    [timedelta] by a (possibly negative) number of microseconds. *)
Definition datetime := Z.
Definition timedelta := Z.

Definition us_per_second : Z := 1000000.
Definition us_per_day : Z := 86400 * us_per_second.

(** [timedelta.days]: Python normalises a timedelta so that the seconds and
    microseconds are non-negative, hence [days] is the floor. *)
Definition timedelta_days (d : timedelta) : Z := d / us_per_day.

(** [int(delta.total_seconds())]: truncation towards zero. *)
Definition int_total_seconds (d : timedelta) : Z := Z.quot d us_per_second.

(** The fields of [Config] that the core reads. *)
Record Config := mkConfig {
  cfg_username : string;
  promotion : bool;
  days_period : Z;
  count_promotion_users : Z;
  seeds_count : Z;
  pages_per_seed : Z;
  max_random_page : Z
}.

Record PromotedUser := mkPromotedUser {
  username : string;
  promotion_date : datetime
}.

(** [PromotedUser.is_expired]; [now] is the value read by [datetime.now()]. *)
Definition is_expired (now : datetime) (self : PromotedUser) (days : Z) : bool :=
  let delta := now - promotion_date self in
  days <? timedelta_days delta.

Record SubscriptionState := mkState {
  followers : gset string;
  following : gset string;
  ban_list_followers : gset string;
  ban_list_following : gset string;
  promoted_users : list PromotedUser
}.

(** [SubscriptionState()] with every [default_factory]. *)
Definition empty_state : SubscriptionState :=
  mkState ∅ ∅ ∅ ∅ [].

Definition get_users_to_follow (self : SubscriptionState) : gset string :=
  followers self ∖ following self ∖ ban_list_followers self.

Definition get_users_to_unfollow (self : SubscriptionState) : gset string :=
  let active_promoted : gset string := list_to_set (username <$> promoted_users self) in
  (following self ∖ followers self ∖ active_promoted) ∖ ban_list_following self.

Record RateLimitInfo := mkRateLimit {
  limit : Z;
  remaining : Z;
  reset_time : datetime
}.

Definition is_exhausted (self : RateLimitInfo) : bool := remaining self =? 0.

Definition seconds_until_reset (now : datetime) (self : RateLimitInfo) : Z :=
  let delta := reset_time self - now in
  Z.max 0 (int_total_seconds delta).

End Models.

(** ** config.py *)

Module ConfigModule.

Record ConfigManager := mkConfigManager {
  ban_lists : gmap string (gset string)
}.

(** [ConfigManager.__init__]: the three keys are always present. *)
Definition init : ConfigManager :=
  mkConfigManager
    (<["ignore_completely" := ∅]> (<["never_unfollow" := ∅]> (<["never_follow" := ∅]> ∅))).

(** [set(x or [])] for an optional YAML list. *)
Definition set_or_empty (x : option (list string)) : gset string :=
  match x with
  | Some l => list_to_set l
  | None => ∅
  end.

(** The ban-list part of [ConfigManager.load]: the three assignments made
    from the [ban_lists] section of the YAML document. *)
Definition load_ban_section (self : ConfigManager)
    (never_follow never_unfollow ignore_completely : option (list string))
    : ConfigManager :=
  let b := <["never_follow" := set_or_empty never_follow]> (ban_lists self) in
  let b := <["never_unfollow" := set_or_empty never_unfollow]> b in
  let b := <["ignore_completely" := set_or_empty ignore_completely]> b in
  mkConfigManager b.

(** [d[key]] on a dict. *)
Definition getitem (d : gmap string (gset string)) (key : string) : Outcome (gset string) :=
  match d !! key with
  | Some v => Ok v
  | None => Raise (KeyError key)
  end.

Definition get_combined_ban_list_followers (self : ConfigManager) : Outcome (gset string) :=
  a ← getitem (ban_lists self) "never_follow";
  b ← getitem (ban_lists self) "ignore_completely";
  Ok (a ∪ b).

Definition get_combined_ban_list_following (self : ConfigManager) : Outcome (gset string) :=
  getitem (ban_lists self) "never_unfollow".

End ConfigModule.

(** ** github_client.py *)

Module Client.
Import Models.

Inductive Method := GET | PUT | DELETE.

(** A request as handed to [session.request]: method, endpoint and, for the
    list endpoints, the [params] dict [{'per_page': _, 'page': _}]. *)
Record Request := mkRequest {
  method : Method;
  endpoint : string;
  params : option (Z * Z)
}.

(** A decoded JSON body: an array of user objects (each given by its
    ['login']) or an object (given by its keys). *)
Inductive Json :=
  | JList (logins : list string)
  | JObject (keys : list string).

(** The three rate-limit headers, already parsed by [int(...)]. *)
Record Headers := mkHeaders {
  x_ratelimit_limit : option Z;
  x_ratelimit_remaining : option Z;
  x_ratelimit_reset : option Z
}.

Record Response := mkResponse {
  status : Z;
  headers : Headers;
  content_type_json : bool;
  body : Json
}.

(** What [session.request] does: it yields a response or raises a
    [ClientError] that is not a [ClientResponseError] (connection failure). *)
Inductive Reply :=
  | Answer (r : Response)
  | ConnectionFailure.

(** What [_make_request] returns: a decoded body, [{}] (which is
    [DJson (JObject [])]) or, when the function falls off its end, [None]. *)
Inductive Data :=
  | DNone
  | DJson (j : Json).

Inductive Verb := Follow | Unfollow.

Inductive Event :=
  | EvRequest (r : Request)
  | EvSleep (ms : Z)
  | EvLaunch (v : Verb) (subject : string).

(** The environment of one run: the reply of the remote service to the
    [n]-th request of the run, and the reading of [datetime.now()] taken
    while that reply is handled. *)
Record Env := mkEnv {
  reply : nat → Request → Reply;
  clock : nat → datetime
}.

(** The client's mutable state ([self.rate_limit]) together with the
    observable history of the run, oldest event first. *)
Record World := mkWorld {
  issued : nat;
  rate_limit : option RateLimitInfo;
  trace : list Event
}.

Definition initial_world : World := mkWorld 0 None [].

Definition send (w : World) (r : Request) : World :=
  mkWorld (S (issued w)) (rate_limit w) (trace w ++ [EvRequest r]).

(** [await asyncio.sleep(seconds)], the duration in milliseconds. *)
Definition sleep (ms : Z) (w : World) : World :=
  mkWorld (issued w) (rate_limit w) (trace w ++ [EvSleep ms]).

Definition launch (v : Verb) (subject : string) (w : World) : World :=
  mkWorld (issued w) (rate_limit w) (trace w ++ [EvLaunch v subject]).

Definition set_rate_limit (rl : option RateLimitInfo) (w : World) : World :=
  mkWorld (issued w) rl (trace w).

Definition PER_PAGE : Z := 100.
Definition max_retries : Z := 3.

(** [datetime.fromtimestamp(int(seconds))]. *)
Definition fromtimestamp (seconds : Z) : datetime := seconds * us_per_second.

(** Lines 76-83: the rate-limit record is replaced whenever the response
    carries ['X-RateLimit-Limit']; the other two headers default to 0. *)
Definition update_rate_limit (h : Headers) (old : option RateLimitInfo)
    : option RateLimitInfo :=
  match x_ratelimit_limit h with
  | Some l =>
      Some (mkRateLimit l (default 0 (x_ratelimit_remaining h))
              (fromtimestamp (default 0 (x_ratelimit_reset h))))
  | None => old
  end.

Definition is_gateway_error (st : Z) : bool :=
  bool_decide (st ∈ [502; 503; 504]).

(** [range(n)] as the list of its values. *)
Definition range (n : Z) : list Z := Z.of_nat <$> seq 0 (Z.to_nat n).

(** The body of [for attempt in range(max_retries)], by recursion on the
    attempts that are left.  [continue] is the recursive call; leaving the
    loop without [return] or [raise] makes the function return [None]. *)
Fixpoint request_attempts (env : Env) (req : Request) (attempts : list Z)
    (retry_delay : Z) (w : World) : World * Outcome Data :=
  match attempts with
  | [] => (w, Ok DNone)
  | attempt :: rest =>
      let n := issued w in
      let w := send w req in
      match reply env n req with
      | ConnectionFailure =>
          if attempt <? max_retries - 1
          then request_attempts env req rest retry_delay (sleep (retry_delay * 1000) w)
          else (w, Raise ClientError)
      | Answer r =>
          let w := set_rate_limit (update_rate_limit (headers r) (rate_limit w)) w in
          match (if status r =? 429 then rate_limit w else None) with
          | Some rl =>
              let wait_time := seconds_until_reset (clock env n) rl + 1 in
              request_attempts env req rest retry_delay (sleep (wait_time * 1000) w)
          | None =>
              if 400 <=? status r
              then
                if is_gateway_error (status r) && (attempt <? max_retries - 1)
                then request_attempts env req rest (retry_delay * 2)
                       (sleep (retry_delay * 1000) w)
                else (w, Raise (ClientResponseError (status r)))
              else
                (w, Ok (if content_type_json r then DJson (body r)
                        else DJson (JObject [])))
          end
      end
  end.

Definition _make_request (env : Env) (req : Request) (w : World)
    : World * Outcome Data :=
  request_attempts env req (range max_retries) 1 w.

(** Truthiness of the value returned by [_make_request] ([if not data]). *)
Definition truthy (d : Data) : bool :=
  match d with
  | DNone => false
  | DJson (JList l) => negb (bool_decide (l = []))
  | DJson (JObject ks) => negb (bool_decide (ks = []))
  end.

(** [[user['login'] for user in data]]: iterating an object yields its keys,
    and indexing a string by ['login'] raises [TypeError]. *)
Definition logins_of (d : Data) : Outcome (list string) :=
  match d with
  | DJson (JList l) => Ok l
  | DJson (JObject []) => Ok []
  | DJson (JObject (_ :: _)) => Raise TypeError
  | DNone => Raise TypeError
  end.

Definition llen {A : Type} (l : list A) : Z := Z.of_nat (length l).

(** [len(data)]. *)
Definition len (d : Data) : Z :=
  match d with
  | DNone => 0
  | DJson (JList l) => llen l
  | DJson (JObject ks) => llen ks
  end.

(** The test [max_pages and page > max_pages]: [None] and [0] are falsy. *)
Definition page_limit_reached (max_pages : option Z) (page : Z) : bool :=
  match max_pages with
  | None => false
  | Some m => negb (m =? 0) && (m <? page)
  end.

(** [username or self.username]. *)
Definition username_or (username : option string) (self_username : string) : string :=
  match username with
  | Some u => if bool_decide (u = "") then self_username else u
  | None => self_username
  end.

Definition list_endpoint (resource username : string) : string :=
  "/users/" +:+ username +:+ "/" +:+ resource.

(** The request for one page: [params = {'per_page': self.PER_PAGE, 'page': page}]. *)
Definition page_request (resource username : string) (page : Z) : Request :=
  mkRequest GET (list_endpoint resource username) (Some (PER_PAGE, page)).

(** The [while True] loop shared, word for word, by [get_followers] and
    [get_following].  The loop has no bound of its own, so the embedding
    carries fuel; [None] means that the fuel ran out with the loop still
    running. *)
Fixpoint list_pages (fuel : nat) (env : Env) (resource username : string)
    (max_pages : option Z) (page : Z) (acc : list string) (w : World)
    : World * option (Outcome (list string)) :=
  match fuel with
  | O => (w, None)
  | S fuel =>
      if page_limit_reached max_pages page then (w, Some (Ok acc))
      else
        match _make_request env (page_request resource username page) w with
        | (w, Raise e) => (w, Some (Raise e))
        | (w, Ok data) =>
            if negb (truthy data) then (w, Some (Ok acc))
            else
              match logins_of data with
              | Raise e => (w, Some (Raise e))
              | Ok logins =>
                  let acc := acc ++ logins in
                  if len data <? PER_PAGE then (w, Some (Ok acc))
                  else list_pages fuel env resource username max_pages (page + 1) acc w
              end
        end
  end.

Definition get_followers (fuel : nat) (env : Env) (self_username : string)
    (username : option string) (max_pages : option Z) (w : World)
    : World * option (Outcome (list string)) :=
  list_pages fuel env "followers" (username_or username self_username) max_pages 1 [] w.

Definition get_following (fuel : nat) (env : Env) (self_username : string)
    (username : option string) (max_pages : option Z) (w : World)
    : World * option (Outcome (list string)) :=
  list_pages fuel env "following" (username_or username self_username) max_pages 1 [] w.

Definition mutation_endpoint (username : string) : string :=
  "/user/following/" +:+ username.

(** [follow_user] and [unfollow_user]: every exception of the request is
    turned into [False]; any return of [_make_request] gives [True]. *)
Definition follow_user (env : Env) (username : string) (w : World)
    : World * Outcome bool :=
  match _make_request env (mkRequest PUT (mutation_endpoint username) None) w with
  | (w, Ok _) => (w, Ok true)
  | (w, Raise _) => (w, Ok false)
  end.

Definition unfollow_user (env : Env) (username : string) (w : World)
    : World * Outcome bool :=
  match _make_request env (mkRequest DELETE (mutation_endpoint username) None) w with
  | (w, Ok _) => (w, Ok true)
  | (w, Raise _) => (w, Ok false)
  end.

(** [asyncio.gather] with [return_exceptions=True] on one cooperative
    thread, the tasks taken in launch order: each result is the task's
    return value or the exception it raised. *)
Fixpoint gather {R : Type} (tasks : list (World → World * R)) (w : World)
    : World * list R :=
  match tasks with
  | [] => (w, [])
  | t :: ts =>
      let '(w, r) := t w in
      let '(w, rs) := gather ts w in
      (w, r :: rs)
  end.

(** The first loop of the batch operations: the coroutine for each subject
    is created in input order, with [asyncio.sleep(delay)] after each. *)
Definition launch_all (v : Verb) (delay : Z) (usernames : list string) (w : World)
    : World :=
  foldl (fun w u => sleep delay (launch v u w)) w usernames.

(** The last loop of [batch_follow] and [batch_unfollow]:
    [for username, response in zip(usernames, responses)]. *)
Definition store (results : gmap string bool) (entry : string * Outcome bool)
    : gmap string bool :=
  let '(username, response) := entry in
  match response with
  | Raise _ => <[username := false]> results
  | Ok b => <[username := b]> results
  end.

Definition collect (usernames : list string) (responses : list (Outcome bool))
    : gmap string bool :=
  foldl store ∅ (zip usernames responses).

(** The batch operation for an arbitrary per-subject coroutine [op]. *)
Definition batch (v : Verb) (op : string → World → World * Outcome bool)
    (usernames : list string) (delay : Z) (w : World) : World * gmap string bool :=
  let w := launch_all v delay usernames w in
  let '(w, responses) := gather (op <$> usernames) w in
  (w, collect usernames responses).

Definition batch_follow (env : Env) : list string → Z → World → World * gmap string bool :=
  batch Follow (follow_user env).

Definition batch_unfollow (env : Env) : list string → Z → World → World * gmap string bool :=
  batch Unfollow (unfollow_user env).

(** A Python dict whose iteration order matters: insertion-ordered pairs;
    assigning to a present key keeps its place. *)
Fixpoint dict_set {V : Type} (d : list (string * V)) (k : string) (v : V)
    : list (string * V) :=
  match d with
  | [] => [(k, v)]
  | (k', v') :: d => if bool_decide (k' = k) then (k, v) :: d else (k', v') :: dict_set d k v
  end.

(** [get_followers_batch(usernames, max_pages=1)]. *)
Definition get_followers_batch (fuel : nat) (env : Env) (self_username : string)
    (usernames : list string) (max_pages : Z) (w : World)
    : World * option (Outcome (list (string * list string))) :=
  let tasks := (fun u => get_followers fuel env self_username (Some u) (Some max_pages))
                 <$> usernames in
  let '(w, results) := gather tasks w in
  (w,
   foldl (fun (acc : option (Outcome (list (string * list string)))) '(username, result) =>
            match acc, result with
            | Some (Ok d), Some (Raise _) => Some (Ok (dict_set d username []))
            | Some (Ok d), Some (Ok fs) => Some (Ok (dict_set d username fs))
            | Some (Ok d), None => None
            | _, _ => acc
            end)
         (Some (Ok [])) (zip usernames results)).

End Client.

(** ** subscription_manager.py *)

Module Manager.
Import Models ConfigModule Client.

(** Python compares [str] values code point by code point; on the byte
    strings used here that is [String.leb]. *)
Definition str_le (a b : string) : Prop := String.leb a b = true.

#[global] Instance str_le_dec : RelDecision str_le.
Proof. intros a b. unfold str_le. apply _. Defined.

(** The builtin [sorted] on a list of strings. *)
Definition sorted (l : list string) : list string := merge_sort str_le l.

(** [range(start, stop, step)] for [stop = start + count * step] rounded up. *)
Fixpoint range_from (start step count : nat) : list nat :=
  match count with
  | O => []
  | S count => start :: range_from (start + step) step count
  end.

Definition range_step (stop step : nat) : list nat :=
  range_from 0 step ((stop + step - 1) `div` step)%nat.

(** [l[i:j]] for [0 <= i <= j]. *)
Definition slice {A : Type} (l : list A) (i j : nat) : list A :=
  take (j - i) (drop i l).

Definition load_ban_lists (config_manager : option ConfigManager)
    (state : SubscriptionState) : Outcome SubscriptionState :=
  match config_manager with
  | None => Raise ValueError
  | Some cm =>
      a ← get_combined_ban_list_followers cm;
      b ← get_combined_ban_list_following cm;
      Ok (mkState (followers state) (following state) a b (promoted_users state))
  end.

(** One round of [for i in range(0, len(users), batch_size)] in
    [_process_follows] and [_process_unfollows], which differ only in the
    batch operation of the client that they call. *)
Definition stream_round
    (batch_op : list string → Z → World → World * gmap string bool)
    (users : list string) (batch_size : nat) (delay : Z)
    (st : World * gmap string bool) (i : nat) : World * gmap string bool :=
  let '(w, results) := st in
  let batch := slice users i (i + batch_size) in
  let '(w, batch_results) := batch_op batch 500 w in
  let results := batch_results ∪ results in
  let w := if bool_decide (i + batch_size < length users)%nat
           then sleep delay w else w in
  (w, results).

Definition process_stream
    (batch_op : list string → Z → World → World * gmap string bool)
    (users : list string) (w : World) : World * gmap string bool :=
  if bool_decide (users = []) then (w, ∅)
  else
    let users := sorted users in
    let batch_size := 5%nat in
    let delay := 1500 in
    foldl (stream_round batch_op users batch_size delay) (w, ∅)
      (range_step (length users) batch_size).

Definition _process_follows (env : Env) : list string → World → World * gmap string bool :=
  process_stream (batch_follow env).

Definition _process_unfollows (env : Env) : list string → World → World * gmap string bool :=
  process_stream (batch_unfollow env).

End Manager.

(** ** promotion.py *)

Module Promotion.
Import Models Client Manager.

(** The injected random source: [random.shuffle] as a function, and
    [random.sample(population, k)] indexed by the number of earlier draws. *)
Record Random := mkRandom {
  shuffle : list string → list string;
  sample : nat → list Z → Z → list Z
}.

Inductive PyValue :=
  | PyInt (z : Z)
  | PyDict (d : list (string * list Z)).

(** Parameters of [get_followers_batch] that a keyword may name once
    [usernames] has been passed positionally. *)
Definition get_followers_batch_keywords : list string := ["max_pages"].

(** A call [self.client.get_followers_batch(usernames, **keywords)].  Python
    binds the arguments to the signature [(self, usernames, max_pages=1)]
    before the body runs and raises [TypeError] for a keyword that names no
    free parameter.  (A non-integer [max_pages] is not modelled further.) *)
Definition call_get_followers_batch (fuel : nat) (env : Env) (self_username : string)
    (usernames : list string) (keywords : list (string * PyValue)) (w : World)
    : World * option (Outcome (list (string * list string))) :=
  if bool_decide (Forall (fun kw => kw.1 ∈ get_followers_batch_keywords) keywords)
  then
    match keywords with
    | [] => get_followers_batch fuel env self_username usernames 1 w
    | (_, PyInt m) :: _ => get_followers_batch fuel env self_username usernames m w
    | (_, PyDict _) :: _ => (w, Some (Raise TypeError))
    end
  else (w, Some (Raise TypeError)).

(** [l[:k]] for any integer [k]. *)
Definition prefix (k : Z) {A : Type} (l : list A) : list A :=
  if 0 <=? k then take (Z.to_nat k) l
  else take (length l - Z.to_nat (- k)) l.

(** [range(a, b)]. *)
Definition range2 (a b : Z) : list Z := (fun k => a + k) <$> range (b - a).

(** The state of the search inside one depth level. *)
Record Search := mkSearch {
  promoted : list string;
  visited : gset string;
  next_level : list string;
  draws : nat
}.

(** [for follower in followers: ...] (lines 106-115). *)
Fixpoint scan_followers (excluded : gset string) (count : Z) (deeper : bool)
    (followers : list string) (promoted next_level : list string)
    : list string * list string :=
  match followers with
  | [] => (promoted, next_level)
  | follower :: rest =>
      let fresh := bool_decide (follower ∉ excluded) && bool_decide (follower ∉ promoted) in
      let promoted := if fresh then promoted ++ [follower] else promoted in
      if fresh && (count <=? llen promoted) then (promoted, next_level)
      else
        let next_level := if deeper then next_level ++ [follower] else next_level in
        scan_followers excluded count deeper rest promoted next_level
  end.

(** [for username, followers in followers_dict.items(): ...] (lines 105-118). *)
Fixpoint scan_dict (excluded : gset string) (count : Z) (deeper : bool)
    (items : list (string * list string)) (promoted next_level : list string)
    : list string * list string :=
  match items with
  | [] => (promoted, next_level)
  | (_, followers) :: rest =>
      let '(promoted, next_level) :=
        scan_followers excluded count deeper followers promoted next_level in
      if count <=? llen promoted then (promoted, next_level)
      else scan_dict excluded count deeper rest promoted next_level
  end.

(** The dict comprehension of lines 96-99; each user takes one draw. *)
Definition pages_for (rng : Random) (cfg : Config) (batch : list string) (draws : nat)
    : list (string * list Z) * nat :=
  let max_random_page := Z.max 1 (max_random_page cfg) in
  let pages_per_seed := Z.max 1 (pages_per_seed cfg) in
  foldl (fun '(pages_map, draws) u =>
           let picked := sample rng draws (range2 1 (max_random_page + 1))
                           (Z.min pages_per_seed max_random_page) in
           let pages := merge_sort Z.le (elements (list_to_set (C := gset Z) picked)) in
           (dict_set pages_map u pages, S draws))
        ([], draws) batch.

(** [for i in range(0, len(queue), batch_size): ...] (lines 81-127), by
    recursion on the start indices that are left. *)
Fixpoint scan_queue (fuel : nat) (env : Env) (rng : Random) (cfg : Config)
    (excluded : gset string) (count : Z) (deeper : bool) (queue : list string)
    (starts : list nat) (s : Search) (w : World) : World * option Search :=
  match starts with
  | [] => (w, Some s)
  | i :: rest =>
      let batch_size := 3%nat in
      let batch := slice queue i (i + batch_size) in
      let batch := filter (fun u => u ∉ visited s) batch in
      if bool_decide (batch = [])
      then scan_queue fuel env rng cfg excluded count deeper queue rest s w
      else
        let visited := visited s ∪ list_to_set batch in
        let '(pages_map, draws) := pages_for rng cfg batch (draws s) in
        match call_get_followers_batch fuel env (cfg_username cfg) batch
                [("pages_map", PyDict pages_map)] w with
        | (w, None) => (w, None)
        | (w, Some result) =>
            let '(promoted, next_level) :=
              match result with
              | Ok followers_dict =>
                  scan_dict excluded count deeper followers_dict (promoted s) (next_level s)
              | Raise _ => (promoted s, next_level s)
              end in
            let s := mkSearch promoted visited next_level draws in
            if count <=? llen promoted then (w, Some s)
            else scan_queue fuel env rng cfg excluded count deeper queue rest s
                   (sleep 1000 w)
        end
  end.

(** The [while] loop of lines 74-131.  [current_depth] grows by one per
    round, so [levels] rounds suffice when [levels] is at least
    [max_depth - current_depth]. *)
Fixpoint search_levels (levels fuel : nat) (env : Env) (rng : Random) (cfg : Config)
    (excluded : gset string) (count max_depth : Z) (queue : list string)
    (current_depth : Z) (promoted : list string) (visited : gset string)
    (draws : nat) (w : World) : World * option (list string) :=
  if negb (bool_decide (queue = [])) && (llen promoted <? count)
     && (current_depth <? max_depth)
  then
    match levels with
    | O => (w, None)
    | S levels =>
        let deeper := current_depth + 1 <? max_depth in
        match scan_queue fuel env rng cfg excluded count deeper queue
                (range_step (length queue) 3) (mkSearch promoted visited [] draws) w with
        | (w, None) => (w, None)
        | (w, Some s) =>
            search_levels levels fuel env rng cfg excluded count max_depth
              (take 50 (next_level s)) (current_depth + 1)
              (Promotion.promoted s) (Promotion.visited s) (Promotion.draws s) w
        end
    end
  else (w, Some promoted).

Definition find_users_to_promote (fuel : nat) (env : Env) (rng : Random) (cfg : Config)
    (current_followers ban_list : gset string) (count max_depth : Z) (w : World)
    : World * option (list string) :=
  let excluded := ban_list ∪ current_followers ∪ {[cfg_username cfg]} in
  let followers_list := elements current_followers in
  if bool_decide (followers_list = []) then (w, Some [])
  else
    let seeds_count := Z.min (seeds_count cfg) (llen followers_list) in
    let followers_list := shuffle rng followers_list in
    let queue := prefix seeds_count followers_list in
    match search_levels (Z.to_nat max_depth) fuel env rng cfg excluded count max_depth
            queue 0 [] ∅ 0%nat w with
    | (w, None) => (w, None)
    | (w, Some promoted) => (w, Some (prefix count promoted))
    end.

End Promotion.

(** ** github_client.py: the remaining operations *)

Module ClientMore.
Import Models Client.


(** [get_user_info]: the decoded body, or [None] after any exception. *)
Definition get_user_info (env : Env) (username : string) (w : World) : World * Data :=
  match _make_request env (mkRequest GET ("/users/" +:+ username) None) w with
  | (w, Ok d) => (w, d)
  | (w, Raise _) => (w, DNone)
  end.

End ClientMore.

(** ** utils.py *)

Module Utils.
Import Models Client Manager.

(** One round of the loop of [batch_process]. *)
Definition process_round {A R : Type} (items : list A)
    (process_func : A → World → World * R) (batch_size : nat) (delay : Z)
    (st : World * list R) (i : nat) : World * list R :=
  let '(w, results) := st in
  let batch := slice items i (i + batch_size) in
  let '(w, batch_results) := gather (process_func <$> batch) w in
  let results := results ++ batch_results in
  let w := if bool_decide (i + batch_size < length items)%nat then sleep delay w else w in
  (w, results).

(** [batch_process(items, process_func, batch_size, delay)].  [range] with a
    step of zero raises [ValueError]; with a negative step and a start of 0
    it is empty. *)
Definition batch_process {A R : Type} (items : list A)
    (process_func : A → World → World * R) (batch_size : Z) (delay : Z) (w : World)
    : World * Outcome (list R) :=
  if batch_size =? 0 then (w, Raise ValueError)
  else if batch_size <? 0 then (w, Ok [])
  else
    let '(w, results) :=
      foldl (process_round items process_func (Z.to_nat batch_size) delay) (w, [])
        (range_step (length items) (Z.to_nat batch_size)) in
    (w, Ok results).

Inductive Cell := Full | Blank.

Record ProgressBar := mkProgressBar {
  total : Z;
  width : Z;
  current : Z
}.

(** ['x' * n]: the empty string for a negative [n]. *)
Definition repeat_cell (c : Cell) (n : Z) : list Cell := replicate (Z.to_nat n) c.

(** The bar drawn by [ProgressBar.update] and the new state of the object.
    (The percentage is a floating-point number and is left out.) *)
Definition update (self : ProgressBar) (current : Z) : ProgressBar * list Cell :=
  let filled := (width self * current) / Z.max (total self) 1 in
  let bar := repeat_cell Full filled ++ repeat_cell Blank (width self - filled) in
  (mkProgressBar (total self) (width self) current, bar).

Definition increment (self : ProgressBar) : ProgressBar * list Cell :=
  update self (Utils.current self + 1).

End Utils.

(** ** promotion.py: tracking of the promoted users *)

Module Tracking.
Import Models Client Manager Promotion.

(** The outside of the tracker: what the [n]-th call of
    [load_promoted_users] returns (the empty list when the file is missing
    or unreadable), and the [n]-th reading of [datetime.now()]. *)
Record Files := mkFiles {
  stored : nat → list PromotedUser;
  now : nat → datetime
}.

(** What the tracker has done so far: the number of loads, the lists handed
    to [save_promoted_users] (oldest first) and the number of clock readings. *)
Record Journal := mkJournal {
  loads : nat;
  saves : list (list PromotedUser);
  readings : nat
}.

Definition fresh_journal : Journal := mkJournal 0 [] 0.

(** The first loop of [check_and_update_promoted_users]; every call of
    [is_expired] reads the clock. *)
Fixpoint classify (files : Files) (days : Z) (users : list PromotedUser) (readings : nat)
    : list string * list string * nat :=
  match users with
  | [] => ([], [], readings)
  | user :: rest =>
      let e := is_expired (now files readings) user days in
      let '(active, expired, readings') := classify files days rest (S readings) in
      if e then (active, username user :: expired, readings')
      else (username user :: active, expired, readings')
  end.

(** [[u for u in promoted_users if not u.is_expired(days)]]. *)
Fixpoint keep_active (files : Files) (days : Z) (users : list PromotedUser) (readings : nat)
    : list PromotedUser * nat :=
  match users with
  | [] => ([], readings)
  | user :: rest =>
      let e := is_expired (now files readings) user days in
      let '(kept, readings') := keep_active files days rest (S readings) in
      if e then (kept, readings') else (user :: kept, readings')
  end.

Definition check_and_update_promoted_users (files : Files) (cfg : Config) (j : Journal)
    : Journal * (list string * list string) :=
  let promoted_users := stored files (loads j) in
  let '(active, expired, r1) := classify files (days_period cfg) promoted_users (readings j) in
  let '(active_promoted, r2) := keep_active files (days_period cfg) promoted_users r1 in
  (mkJournal (S (loads j)) (saves j ++ [active_promoted]) r2, (active, expired)).

Definition add_promoted_users (files : Files) (usernames : list string) (j : Journal)
    : Journal :=
  if bool_decide (usernames = []) then j
  else
    let existing := stored files (loads j) in
    let existing_usernames : gset string := list_to_set (username <$> existing) in
    let now := now files (readings j) in
    let added := (fun u => mkPromotedUser u now)
                   <$> filter (fun u => u ∉ existing_usernames) usernames in
    mkJournal (S (loads j)) (saves j ++ [existing ++ added]) (S (readings j)).

(** [process_promotion]; [None] when the search ran out of fuel. *)
Definition process_promotion (fuel : nat) (env : Env) (rng : Random) (files : Files)
    (cfg : Config) (current_followers current_following ban_list : gset string)
    (j : Journal) (w : World)
    : World * Journal * option (gset string * gset string) :=
  if negb (promotion cfg) then (w, j, Some (current_followers, current_following))
  else
    let '(j, (active_promoted, expired_promoted)) :=
      check_and_update_promoted_users files cfg j in
    let updated_followers := current_followers ∪ list_to_set active_promoted in
    let updated_following := current_following ∖ list_to_set expired_promoted in
    let needed_count := count_promotion_users cfg - llen active_promoted in
    if 0 <? needed_count
    then
      match find_users_to_promote fuel env rng cfg current_followers ban_list
              needed_count 1 w with
      | (w, None) => (w, j, None)
      | (w, Some new_promoted) =>
          if bool_decide (new_promoted = [])
          then (w, j, Some (updated_followers, updated_following))
          else (w, add_promoted_users files new_promoted j,
                Some (updated_followers ∪ list_to_set new_promoted, updated_following))
      end
    else (w, j, Some (updated_followers, updated_following)).

End Tracking.

(** ** subscription_manager.py: one run *)

Module Run.
Import Models ConfigModule Client Manager Promotion Tracking.

(** Results of a step that may run out of fuel ([None]) or raise. *)
Definition Step (A : Type) : Type := option (Outcome A).

(** [fetch_current_state]: both lists are fetched (the followers first on
    the one cooperative thread), the first exception is raised, and the ban
    lists are subtracted at once. *)
Definition fetch_current_state (fuel : nat) (env : Env) (self_username : string)
    (state : SubscriptionState) (w : World) : World * Step SubscriptionState :=
  let '(w, r1) := get_followers fuel env self_username None None w in
  let '(w, r2) := get_following fuel env self_username None None w in
  (w,
   match r1, r2 with
   | Some (Ok followers), Some (Ok following) =>
       Some (Ok (mkState (list_to_set followers ∖ ban_list_followers state)
                   (list_to_set following ∖ ban_list_following state)
                   (ban_list_followers state) (ban_list_following state)
                   (promoted_users state)))
   | Some (Raise e), _ => Some (Raise e)
   | None, _ => None
   | Some (Ok _), Some (Raise e) => Some (Raise e)
   | Some (Ok _), None => None
   end).

(** [process_subscriptions]; the two streams are run one after the other. *)
Definition process_subscriptions (fuel : nat) (env : Env) (rng : Random) (files : Files)
    (cfg : Config) (state : SubscriptionState) (j : Journal) (w : World)
    : World * Journal * option SubscriptionState :=
  let '(w, j, sets) :=
    if promotion cfg
    then process_promotion fuel env rng files cfg (followers state) (following state)
           (ban_list_followers state) j w
    else (w, j, Some (followers state, following state)) in
  match sets with
  | None => (w, j, None)
  | Some (updated_followers, updated_following) =>
      let state := mkState updated_followers updated_following
                     (ban_list_followers state) (ban_list_following state)
                     (promoted_users state) in
      let users_to_follow := get_users_to_follow state in
      let users_to_unfollow := get_users_to_unfollow state in
      let '(w, _) := _process_follows env (elements users_to_follow) w in
      let '(w, _) := _process_unfollows env (elements users_to_unfollow) w in
      (w, j, Some state)
  end.

(** [run]: ban lists, current state, subscriptions; any exception is
    logged and raised again. *)
Definition run (fuel : nat) (env : Env) (rng : Random) (files : Files) (cfg : Config)
    (config_manager : option ConfigManager) (state : SubscriptionState)
    (j : Journal) (w : World) : World * Journal * Step SubscriptionState :=
  match load_ban_lists config_manager state with
  | Raise e => (w, j, Some (Raise e))
  | Ok state =>
      match fetch_current_state fuel env (cfg_username cfg) state w with
      | (w, None) => (w, j, None)
      | (w, Some (Raise e)) => (w, j, Some (Raise e))
      | (w, Some (Ok state)) =>
          match process_subscriptions fuel env rng files cfg state j w with
          | (w, j, None) => (w, j, None)
          | (w, j, Some state) => (w, j, Some (Ok state))
          end
      end
  end.

Definition size_of (s : gset string) : Z := Z.of_nat (size s).

(** [get_statistics]: the counters as a dict. *)
Definition get_statistics (fuel : nat) (env : Env) (files : Files) (cfg : Config)
    (state : SubscriptionState) (j : Journal) (w : World)
    : World * Journal * Step (SubscriptionState * gmap string Z) :=
  match fetch_current_state fuel env (cfg_username cfg) state w with
  | (w, None) => (w, j, None)
  | (w, Some (Raise e)) => (w, j, Some (Raise e))
  | (w, Some (Ok state)) =>
      let stats : gmap string Z :=
        <["banned_following" := size_of (ban_list_following state)]>
        (<["banned_followers" := size_of (ban_list_followers state)]>
        (<["not_followed_back" := size_of (followers state ∖ following state)]>
        (<["not_following_back" := size_of (following state ∖ followers state)]>
        (<["mutual" := size_of (followers state ∩ following state)]>
        (<["following" := size_of (following state)]>
        (<["followers" := size_of (followers state)]> ∅)))))) in
      if promotion cfg
      then
        let '(j, (active, expired)) := check_and_update_promoted_users files cfg j in
        (w, j, Some (Ok (state,
           <["promoted_expired" := llen expired]>
           (<["promoted_active" := llen active]> stats))))
      else (w, j, Some (Ok (state, stats)))
  end.

End Run.

(** ** config.py: loading, validating and saving the configuration *)

Module Settings.
Import Models ConfigModule Manager.

Inductive ConfigError :=
  | ConfigFileNotFound
  | ConfigYAMLError
  | ConfigKeyError (key : string)
  | ConfigAttributeError
  | ConfigValueError (message : string).

Inductive Result (A : Type) : Type :=
  | Done (a : A)
  | Failed (e : ConfigError).
Arguments Done {A} a.
Arguments Failed {A} e.

#[global] Instance Result_bind : MBind Result := fun A B k m =>
  match m with
  | Done a => k a
  | Failed e => Failed e
  end.

(** [d[key]] for an entry that may be missing. *)
Definition require {A : Type} (key : string) (entry : option A) : Result A :=
  match entry with
  | Some a => Done a
  | None => Failed (ConfigKeyError key)
  end.

(** The whole [Config] dataclass: the fields read by the core, and the two
    others. *)
Record AppConfig := mkAppConfig {
  core : Config;
  token : string;
  retry_on : bool
}.

(** The dict handed to [Config.from_dict]; a missing key is [None]. *)
Record ConfigDict := mkConfigDict {
  USERNAME : option string;
  TOKEN : option string;
  PROMOTION : option bool;
  DAYS_PERIOD : option Z;
  COUNT_PROMOTION_USERS : option Z;
  RETRY_ON : option bool;
  SEEDS_COUNT : option Z;
  PAGES_PER_SEED : option Z;
  MAX_RANDOM_PAGE : option Z
}.

Definition from_dict (data : ConfigDict) : Result AppConfig :=
  username ← require "USERNAME" (USERNAME data);
  token ← require "TOKEN" (TOKEN data);
  Done (mkAppConfig
          (mkConfig username
             (default true (PROMOTION data))
             (default 3 (DAYS_PERIOD data))
             (default 500 (COUNT_PROMOTION_USERS data))
             (default 5 (SEEDS_COUNT data))
             (default 2 (PAGES_PER_SEED data))
             (default 5 (MAX_RANDOM_PAGE data)))
          token
          (default true (RETRY_ON data))).

(** The YAML document after [yaml.safe_load], section by section; every
    key may be missing, and the values have the types the code expects. *)
Record GithubSection := mkGithub {
  gh_username : option string;
  gh_token : option string
}.

Record PromotionSection := mkPromotionSection {
  pr_enabled : option bool;
  pr_days_period : option Z;
  pr_count_users : option Z
}.

(** [request_delay] in milliseconds. *)
Record SettingsSection := mkSettingsSection {
  st_retry_on_error : option bool;
  st_max_concurrent_requests : option Z;
  st_request_delay : option Z;
  st_batch_size : option Z
}.

Record BanSection := mkBanSection {
  bl_never_follow : option (list string);
  bl_never_unfollow : option (list string);
  bl_ignore_completely : option (list string)
}.

Record LoggingSection := mkLoggingSection {
  lg_level : option string;
  lg_file : option string
}.

(** [ban_lists] may be missing ([None]), null ([Some None]) or a mapping. *)
Record Document := mkDocument {
  github : option GithubSection;
  promotion_section : option PromotionSection;
  settings : option SettingsSection;
  ban_section : option (option BanSection);
  logging : option LoggingSection
}.

Inductive FileState :=
  | Absent
  | Unparsable
  | Parsed (data : Document).

(** The state of a [ConfigManager] object. *)
Record Manager := mkManager {
  config : option AppConfig;
  lists : ConfigManager
}.

(** [ConfigManager.__init__]. *)
Definition new_manager : Manager := mkManager None init.

(** The dict literal [config_data] of [load]; its entries are evaluated in
    order, so the first missing key is the one reported. *)
Definition config_data (data : Document) : Result ConfigDict :=
  gh ← require "github" (github data);
  username ← require "username" (gh_username gh);
  token ← require "token" (gh_token gh);
  pr ← require "promotion" (promotion_section data);
  enabled ← require "enabled" (pr_enabled pr);
  days_period ← require "days_period" (pr_days_period pr);
  count_users ← require "count_users" (pr_count_users pr);
  st ← require "settings" (settings data);
  Done (mkConfigDict (Some username) (Some token) (Some enabled) (Some days_period)
          (Some count_users) (Some (default true (st_retry_on_error st)))
          None None None).

Definition _validate_config (self : Manager) : Result unit :=
  match config self with
  | None => Failed (ConfigValueError "Configuration not loaded")
  | Some c =>
      if bool_decide (cfg_username (core c) = "")
      then Failed (ConfigValueError "USERNAME is required in configuration")
      else if bool_decide (token c = "")
      then Failed (ConfigValueError "TOKEN is required in configuration")
      else if days_period (core c) <? 1
      then Failed (ConfigValueError "DAYS_PERIOD must be at least 1")
      else if count_promotion_users (core c) <? 0
      then Failed (ConfigValueError "COUNT_PROMOTION_USERS cannot be negative")
      else Done ()
  end.

Definition no_ban_section : BanSection := mkBanSection None None None.

(** [ConfigManager.load]: the object is updated as the function goes, so a
    failure leaves behind whatever was assigned before it. *)
Definition load (file : FileState) (self : Manager) : Manager * Result AppConfig :=
  match file with
  | Absent => (self, Failed ConfigFileNotFound)
  | Unparsable => (self, Failed ConfigYAMLError)
  | Parsed data =>
      match config_data data ≫= from_dict with
      | Failed e => (self, Failed e)
      | Done c =>
          let self := mkManager (Some c) (lists self) in
          match ban_section data with
          | Some None => (self, Failed ConfigAttributeError)
          | section =>
              let b := default no_ban_section (mjoin section) in
              let self :=
                mkManager (Some c)
                  (load_ban_section (lists self) (bl_never_follow b)
                     (bl_never_unfollow b) (bl_ignore_completely b)) in
              match _validate_config self with
              | Failed e => (self, Failed e)
              | Done _ => (self, Done c)
              end
          end
      end
  end.

(** [ConfigManager.get]. *)
Definition get (self : Manager) : Result AppConfig :=
  match config self with
  | None => Failed (ConfigValueError "Configuration not loaded. Call load() first.")
  | Some c => Done c
  end.

(** [sorted(list(self.ban_lists.get(key, set())))]. *)
Definition sorted_list (self : Manager) (key : string) : list string :=
  sorted (elements (default ∅ (ban_lists (lists self) !! key))).

(** [ConfigManager.save]: the document handed to [yaml.dump]. *)
Definition save (config : option AppConfig) (self : Manager) : Manager * Result Document :=
  let self := match config with
              | Some c => mkManager (Some c) (lists self)
              | None => self
              end in
  match Settings.config self with
  | None => (self, Failed (ConfigValueError "No configuration to save"))
  | Some c =>
      (self,
       Done (mkDocument
               (Some (mkGithub (Some (cfg_username (core c))) (Some (token c))))
               (Some (mkPromotionSection (Some (promotion (core c)))
                        (Some (days_period (core c)))
                        (Some (count_promotion_users (core c)))))
               (Some (mkSettingsSection (Some (retry_on c)) (Some 5) (Some 500) (Some 5)))
               (Some (Some (mkBanSection (Some (sorted_list self "never_follow"))
                              (Some (sorted_list self "never_unfollow"))
                              (Some (sorted_list self "ignore_completely")))))
               (Some (mkLoggingSection (Some "INFO") (Some "subscription_manager.log")))))
  end.

End Settings.

(** ** What a run lets one observe *)

Module Observe.
Import Models Client.

(** The coroutines created by the batch operations, in creation order. *)
Definition launches (t : list Event) : list (Verb * string) :=
  omap (fun e => match e with EvLaunch v u => Some (v, u) | _ => None end) t.

(** The HTTP requests of a run, in the order in which they were sent. *)
Definition requests (t : list Event) : list Request :=
  omap (fun e => match e with EvRequest r => Some r | _ => None end) t.

(** The page numbers asked for, in order. *)
Definition pages_requested (t : list Event) : list Z :=
  omap (fun r => snd <$> params r) (requests t).

(** A coroutine whose result is fixed per subject and which leaves the
    world alone: the "assignment of outcomes" of the batch-isolation test. *)
Definition scripted (outcome : string → Outcome bool) (u : string) (w : World)
    : World * Outcome bool := (w, outcome u).

(** What a subject's entry in a batch result has to be. *)
Definition expected (o : Outcome bool) : bool :=
  match o with
  | Ok b => b
  | Raise _ => false
  end.

(** A well-behaved list endpoint: every request for page [p] is answered
    with status 200 and the JSON array [pages p]; the rate-limit headers of
    the [n]-th answer are [hdrs n]. *)
Definition paged_env (pages : Z → list string) (hdrs : nat → Headers)
    (clk : nat → datetime) : Env :=
  mkEnv (fun n req =>
           Answer (mkResponse 200 (hdrs n) true
                     (JList (match params req with
                             | Some (_, p) => pages p
                             | None => []
                             end))))
        clk.

(** A service that answers from a fixed script and then keeps failing. *)
Definition scripted_env (script : list Reply) (now : datetime) : Env :=
  mkEnv (fun n _ => default ConnectionFailure (script !! n)) (fun _ => now).

Definition no_headers : Headers := mkHeaders None None None.

Definition plain (st : Z) (items : list string) : Reply :=
  Answer (mkResponse st no_headers true (JList items)).

(** A random source that shuffles nothing and samples the first [k] values. *)
Definition first_k : Promotion.Random :=
  Promotion.mkRandom (fun l => l) (fun _ population k => take (Z.to_nat k) population).

Definition default_config (username : string) : Config :=
  mkConfig username true 3 500 5 2 5.

(** Every follower page of every user holds the same two accounts. *)
Definition two_followers : Env :=
  mkEnv (fun _ _ => Answer (mkResponse 200 (mkHeaders None None None) true
                              (JList ["bob"; "carol"])))
        (fun _ => 0).

(** A 429 answer that carries the rate-limit headers, reset at [reset]. *)
Definition too_many_requests (reset : Z) : Reply :=
  Answer (mkResponse 429 (mkHeaders (Some 60) (Some 0) (Some reset)) true (JObject [])).


(** One full page, then nothing but 429 answers. *)
Definition one_page_then_limited : Env :=
  scripted_env [plain 200 (replicate 100 "user"); too_many_requests 5;
                too_many_requests 5; too_many_requests 5; plain 200 ["late"]] 0.

End Observe.

(** ** What a step sends *)

Module Audit.
Import Models Client Observe.

(** Between the worlds [w] and [w'] only requests that satisfy [P] were
    sent. *)
Definition sends_only (P : Request → Prop) (w w' : World) : Prop :=
  ∃ new, requests (trace w') = requests (trace w) ++ new ∧ Forall P new.

(** The requests a run of the manager for [self_username] may send when it
    must not follow [ban_follow] nor unfollow [ban_unfollow]. *)
Definition allowed (self_username : string) (ban_follow ban_unfollow : gset string)
    (r : Request) : Prop :=
  (∃ p, r = page_request "followers" self_username p)
  ∨ (∃ p, r = page_request "following" self_username p)
  ∨ (∃ u, (u ∉ ban_follow) ∧ r = mkRequest PUT (mutation_endpoint u) None)
  ∨ (∃ u, (u ∉ ban_unfollow) ∧ r = mkRequest DELETE (mutation_endpoint u) None).

End Audit.

(** * Properties *)

(** ** Reconciliation state ([models.py]) *)

Section Reconciliation.
Import Models.

Lemma elem_of_active_promoted (l : list PromotedUser) (u : string) :
  u ∈ (list_to_set (username <$> l) : gset string) ↔ ∃ p, p ∈ l ∧ username p = u.
Proof.
  rewrite elem_of_list_to_set, list_elem_of_fmap. naive_solver.
Qed.

(** C3: for arbitrary finite sets [followers], [following], [excludeFollow],
    [excludeUnfollow] and a protected list whose usernames form the set
    [protected], the state computes exactly
    [toFollow = followers − following − excludeFollow] and
    [toUnfollow = (following − followers − protected) − excludeUnfollow]. *)
Theorem delta_is_set_algebra
    (fs fg exclude_follow exclude_unfollow protected : gset string)
    (protected_list : list PromotedUser) :
  (∀ u, u ∈ protected ↔ ∃ p, p ∈ protected_list ∧ username p = u) →
  let st := mkState fs fg exclude_follow exclude_unfollow protected_list in
  get_users_to_follow st = fs ∖ fg ∖ exclude_follow
  ∧ get_users_to_unfollow st = (fg ∖ fs ∖ protected) ∖ exclude_unfollow
  ∧ (∀ u, (u ∈ get_users_to_follow st) ↔ (u ∈ fs ∧ (u ∉ fg) ∧ (u ∉ exclude_follow)))
  ∧ (∀ u, (u ∈ get_users_to_unfollow st) ↔
          (u ∈ fg ∧ (u ∉ fs) ∧ (u ∉ protected) ∧ (u ∉ exclude_unfollow))).
Proof.
  intros Hprot st.
  assert (Hset : (list_to_set (username <$> protected_list) : gset string) = protected).
  { apply set_eq. intros u. rewrite elem_of_active_promoted. symmetry. apply Hprot. }
  unfold get_users_to_follow, get_users_to_unfollow; simpl. rewrite Hset.
  repeat split; try set_solver.
Qed.

Lemma delta_is_set_algebra_witness :
  let d := mkPromotedUser "d" 0 in
  get_users_to_follow (mkState {["a"; "b"; "c"]} {["b"; "c"; "d"]} ∅ ∅ [d])
    = ({["a"; "b"; "c"]} : gset string) ∖ {["b"; "c"; "d"]} ∖ ∅
  ∧ get_users_to_unfollow (mkState {["a"; "b"; "c"]} {["b"; "c"; "d"]} ∅ ∅ [d])
    = (({["b"; "c"; "d"]} : gset string) ∖ {["a"; "b"; "c"]} ∖ {["d"]}) ∖ ∅.
Proof.
  intros d.
  assert (H : ∀ u : string, u ∈ ({["d"]} : gset string) ↔
                ∃ p, p ∈ [d] ∧ username p = u).
  { intros u. rewrite elem_of_singleton. split.
    - intros ->. exists d. split; [apply list_elem_of_here | reflexivity].
    - intros (p & Hp & <-). apply list_elem_of_singleton in Hp. subst p. reflexivity. }
  pose proof (delta_is_set_algebra {["a"; "b"; "c"]} {["b"; "c"; "d"]} ∅ ∅ {["d"]} [d] H)
    as (H1 & H2 & _).
  split; [exact H1 | exact H2].
Defined.

(** The two end-to-end scenarios of the specification. *)
Example scenario_plain :
  get_users_to_follow (mkState {["a"; "b"; "c"]} {["b"; "c"; "d"]} ∅ ∅ []) = {["a"]}
  ∧ get_users_to_unfollow (mkState {["a"; "b"; "c"]} {["b"; "c"; "d"]} ∅ ∅ []) = {["d"]}.
Proof. split; vm_compute; reflexivity. Qed.

Example scenario_protected :
  get_users_to_unfollow
    (mkState {["a"; "b"; "c"]} {["b"; "c"; "d"]} ∅ ∅ [mkPromotedUser "d" 0]) = ∅.
Proof. vm_compute; reflexivity. Qed.

(** C4, as stated, fails: the state does not know the account's own
    username, so a follower set that lists it yields it as a follow target. *)
Lemma own_username_not_filtered :
  let st := mkState {["me"]} ∅ ∅ ∅ [] in
  ¬ (get_users_to_follow st ∩ get_users_to_unfollow st = ∅
     ∧ ("me" ∉ get_users_to_follow st)
     ∧ ("me" ∉ get_users_to_unfollow st)).
Proof.
  intros st (_ & H & _). apply H.
  unfold st, get_users_to_follow; simpl. set_solver.
Qed.

(** C4 (amended): the computed [toFollow] and [toUnfollow] are always
    disjoint, and when the fetched follower and following sets do not list
    the managed account itself, neither computed set contains its username. *)
Theorem delta_disjoint (st : SubscriptionState) (own : string) :
  own ∉ followers st → own ∉ following st →
  get_users_to_follow st ∩ get_users_to_unfollow st = ∅
  ∧ (own ∉ get_users_to_follow st)
  ∧ (own ∉ get_users_to_unfollow st).
Proof.
  intros Hfs Hfg. unfold get_users_to_follow, get_users_to_unfollow.
  repeat split; set_solver.
Qed.

Lemma delta_disjoint_witness :
  let st := mkState {["a"; "b"; "c"]} {["b"; "c"; "d"]} {["c"]} ∅ [] in
  get_users_to_follow st ∩ get_users_to_unfollow st = ∅
  ∧ ("me" ∉ get_users_to_follow st)
  ∧ ("me" ∉ get_users_to_unfollow st).
Proof.
  intros st. apply (delta_disjoint st "me"); unfold st; simpl; set_solver.
Defined.

(** Disjointness alone needs no assumption. *)
Lemma follow_unfollow_disjoint (st : SubscriptionState) :
  get_users_to_follow st ∩ get_users_to_unfollow st = ∅.
Proof. unfold get_users_to_follow, get_users_to_unfollow. set_solver. Qed.



(** Between whole days the age is rounded down: an account acquired less
    than [retention_days + 1] days ago is still active. *)
Lemma is_expired_partial_day (u : PromotedUser) (now retention_days : Z) :
  is_expired now u retention_days = true
  ↔ (retention_days + 1) * us_per_day <= now - promotion_date u.
Proof.
  unfold is_expired, timedelta_days. rewrite Z.ltb_lt.
  assert (0 < us_per_day) by (unfold us_per_day, us_per_second; lia).
  set (d := now - promotion_date u) in *. split; intros Hd.
  - pose proof (Z.mul_div_le d us_per_day ltac:(lia)). nia.
  - enough (retention_days + 1 <= d / us_per_day) by lia.
    apply Z.div_le_lower_bound; lia.
Qed.

End Reconciliation.

(** ** Exclusion lists ([config.py], [load_ban_lists]) *)

Section BanLists.
Import Models ConfigModule Manager.

(** C8: whatever the three configured lists are, the follow-exclusion set
    handed to reconciliation is [never_follow ∪ ignore_completely] and the
    unfollow-exclusion set is [never_unfollow] alone. *)
Theorem ban_lists_folding (cm0 : ConfigManager)
    (never_follow never_unfollow ignore_completely : option (list string))
    (st : SubscriptionState) :
  let cm := load_ban_section cm0 never_follow never_unfollow ignore_completely in
  get_combined_ban_list_followers cm
    = Ok (set_or_empty never_follow ∪ set_or_empty ignore_completely)
  ∧ get_combined_ban_list_following cm = Ok (set_or_empty never_unfollow)
  ∧ load_ban_lists (Some cm) st
    = Ok (mkState (followers st) (following st)
            (set_or_empty never_follow ∪ set_or_empty ignore_completely)
            (set_or_empty never_unfollow) (promoted_users st)).
Proof.
  intros cm.
  assert (Ha : get_combined_ban_list_followers cm
               = Ok (set_or_empty never_follow ∪ set_or_empty ignore_completely)).
  { unfold get_combined_ban_list_followers, getitem, cm, load_ban_section.
    cbn [ban_lists].
    rewrite (lookup_insert_ne _ "ignore_completely" "never_follow") by done.
    rewrite (lookup_insert_ne _ "never_unfollow" "never_follow") by done.
    rewrite !lookup_insert_eq. reflexivity. }
  assert (Hb : get_combined_ban_list_following cm = Ok (set_or_empty never_unfollow)).
  { unfold get_combined_ban_list_following, getitem, cm, load_ban_section.
    cbn [ban_lists].
    rewrite (lookup_insert_ne _ "ignore_completely" "never_unfollow") by done.
    rewrite lookup_insert_eq. reflexivity. }
  split; [exact Ha | split; [exact Hb |]].
  unfold load_ban_lists. rewrite Ha, Hb. reflexivity.
Qed.

(** Without a configuration manager the ban lists cannot be loaded. *)
Lemma load_ban_lists_needs_manager (st : SubscriptionState) :
  load_ban_lists None st = Raise ValueError.
Proof. reflexivity. Qed.

Example ignore_completely_only_blocks_follow :
  load_ban_lists (Some (load_ban_section init None None (Some ["x"]))) empty_state
  = Ok (mkState ∅ ∅ (∅ ∪ {["x"]} ∪ ∅) ∅ []).
Proof. reflexivity. Qed.

End BanLists.

(** ** Batch isolation ([batch_follow], [batch_unfollow]) *)

Section BatchIsolation.
Import Models Client Observe.

Lemma gather_cons {R : Type} (t : World → World * R) ts (w : World) :
  gather (t :: ts) w = ((gather ts (t w).1).1, (t w).2 :: (gather ts (t w).1).2).
Proof.
  simpl. destruct (t w) as [w1 r]. simpl. by destruct (gather ts w1).
Qed.


Lemma store_insert results u o : store results (u, o) = <[u := expected o]> results.
Proof. by destruct o. Qed.


Lemma collect_store usernames responses :
  collect usernames responses = foldl store ∅ (zip usernames responses).
Proof. reflexivity. Qed.



Example batch_of_five :
  (batch Follow
     (scripted (fun u => if bool_decide (u = "u3") then Raise ClientError else Ok true))
     ["u1"; "u2"; "u3"; "u4"; "u5"] 300 initial_world).2
  = <["u5" := true]> (<["u4" := true]> (<["u3" := false]>
      (<["u2" := true]> (<["u1" := true]> ∅)))).
Proof. reflexivity. Qed.

(** The mutation calls themselves never raise: any exception of the request
    becomes the result [False]. *)
Lemma follow_user_total (env : Env) (u : string) (w : World) :
  ∃ b, (follow_user env u w).2 = Ok b.
Proof.
  unfold follow_user.
  destruct (_make_request env _ w) as [w' [d|e]]; simpl; eauto.
Qed.

Lemma unfollow_user_total (env : Env) (u : string) (w : World) :
  ∃ b, (unfollow_user env u w).2 = Ok b.
Proof.
  unfold unfollow_user.
  destruct (_make_request env _ w) as [w' [d|e]]; simpl; eauto.
Qed.

(** Whatever the service does, the result of [batch_follow] has exactly the
    subjects as its keys. *)
Lemma gather_length {R : Type} (tasks : list (World → World * R)) (w : World) :
  length (gather tasks w).2 = length tasks.
Proof.
  revert w. induction tasks as [|t ts IH]; intros w; [done|].
  rewrite gather_cons. simpl. by rewrite IH.
Qed.

Lemma foldl_store_dom (entries : list (string * Outcome bool)) :
  ∀ acc, dom (foldl store acc entries) = dom acc ∪ list_to_set entries.*1.
Proof.
  induction entries as [|[u o] es IH]; intros acc.
  - set_solver.
  - cbn [foldl]. rewrite IH, store_insert, dom_insert_L. set_solver.
Qed.

Lemma batch_domain (v : Verb) (op : string → World → World * Outcome bool)
    (usernames : list string) (delay : Z) (w : World) :
  dom (batch v op usernames delay w).2 = list_to_set usernames.
Proof.
  unfold batch.
  pose proof (gather_length (op <$> usernames) (launch_all v delay usernames w)) as Hlen.
  destruct (gather _ _) as [w' rs]. simpl in *. rewrite collect_store, foldl_store_dom.
  rewrite fst_zip; [rewrite dom_empty_L; set_solver|].
  rewrite Hlen, length_fmap. lia.
Qed.

End BatchIsolation.

(** ** Order of the mutation calls ([_process_follows], [_process_unfollows]) *)

Section StringOrder.
Import Manager.

Lemma ascii_compare_eq (a b : Ascii.ascii) :
  Ascii.compare a b = Eq → a = b.
Proof. apply Ascii.compare_eq_iff. Qed.

Lemma ascii_compare_trans (a b c : Ascii.ascii) (o : comparison) :
  Ascii.compare a b = o → Ascii.compare b c = o → Ascii.compare a c = o.
Proof.
  unfold Ascii.compare. destruct o.
  - rewrite !N.compare_eq_iff. congruence.
  - rewrite !N.compare_lt_iff. lia.
  - rewrite !N.compare_gt_iff. lia.
Qed.

Lemma string_compare_trans (o : comparison) :
  ∀ s1 s2 s3 : string,
    String.compare s1 s2 = o → String.compare s2 s3 = o → String.compare s1 s3 = o.
Proof.
  induction s1 as [|a s1 IH]; intros [|b s2] [|c s3]; simpl; try congruence.
  destruct (Ascii.compare a b) eqn:Hab; destruct (Ascii.compare b c) eqn:Hbc.
  - rewrite (ascii_compare_trans a b c Eq Hab Hbc). apply IH.
  - apply ascii_compare_eq in Hab. subst b. rewrite Hbc. congruence.
  - apply ascii_compare_eq in Hab. subst b. rewrite Hbc. congruence.
  - apply ascii_compare_eq in Hbc. subst c. rewrite Hab. congruence.
  - rewrite (ascii_compare_trans a b c Lt Hab Hbc). congruence.
  - congruence.
  - apply ascii_compare_eq in Hbc. subst c. rewrite Hab. congruence.
  - congruence.
  - rewrite (ascii_compare_trans a b c Gt Hab Hbc). congruence.
Qed.

Lemma str_le_total : Total str_le.
Proof. intros a b. apply String.leb_total. Qed.

Lemma str_le_antisym : AntiSymm (=) str_le.
Proof. intros a b. apply String.leb_antisym. Qed.

Lemma str_le_trans : Transitive str_le.
Proof.
  intros a b c. unfold str_le, String.leb.
  destruct (String.compare a b) eqn:Hab; [| |discriminate];
    destruct (String.compare b c) eqn:Hbc; try discriminate; intros _ _.
  - by rewrite (string_compare_trans Eq a b c).
  - apply String.compare_eq_iff in Hab. subst b. by rewrite Hbc.
  - apply String.compare_eq_iff in Hbc. subst c. by rewrite Hab.
  - by rewrite (string_compare_trans Lt a b c).
Qed.

Lemma sorted_Sorted (l : list string) : Sorted str_le (sorted l).
Proof. apply (@Sorted_merge_sort _ str_le _ str_le_total). Qed.

Lemma sorted_Permutation (l : list string) : sorted l ≡ₚ l.
Proof. apply merge_sort_Permutation. Qed.

(** [sorted] forgets the order in which the elements are handed to it. *)
Lemma sorted_canonical (l1 l2 : list string) : l1 ≡ₚ l2 → sorted l1 = sorted l2.
Proof.
  intros Hp.
  apply (@Sorted_unique _ str_le str_le_trans str_le_antisym);
    [apply sorted_Sorted | apply sorted_Sorted |].
  by rewrite !sorted_Permutation.
Qed.

End StringOrder.

Section MutationOrder.
Import Models Client Manager Observe.

Lemma launches_app (t1 t2 : list Event) :
  launches (t1 ++ t2) = launches t1 ++ launches t2.
Proof. apply omap_app. Qed.

Lemma launches_send w r : launches (trace (send w r)) = launches (trace w).
Proof. unfold send; simpl. rewrite launches_app. simpl. apply app_nil_r. Qed.

Lemma launches_sleep ms w : launches (trace (sleep ms w)) = launches (trace w).
Proof. unfold sleep; simpl. rewrite launches_app. simpl. apply app_nil_r. Qed.

Lemma launches_launch v u w :
  launches (trace (launch v u w)) = launches (trace w) ++ [(v, u)].
Proof. unfold launch; simpl. by rewrite launches_app. Qed.

(** A request, with all its retries, creates no coroutine. *)
Lemma request_attempts_launches env req attempts :
  ∀ retry_delay w,
    launches (trace (request_attempts env req attempts retry_delay w).1)
    = launches (trace w).
Proof.
  induction attempts as [|attempt rest IH]; intros retry_delay w; [done|].
  cbn [request_attempts].
  destruct (reply env (issued w) req) as [r|].
  - cbn zeta.
    destruct (if status r =? 429 then _ else None) as [rl|].
    + rewrite IH, launches_sleep. apply launches_send.
    + destruct (400 <=? status r); [|apply launches_send].
      destruct (is_gateway_error (status r) && (attempt <? max_retries - 1)).
      * rewrite IH, launches_sleep. apply launches_send.
      * apply launches_send.
  - destruct (attempt <? max_retries - 1).
    + rewrite IH, launches_sleep. apply launches_send.
    + apply launches_send.
Qed.

Lemma follow_user_launches env u w :
  launches (trace (follow_user env u w).1) = launches (trace w).
Proof.
  unfold follow_user.
  pose proof (request_attempts_launches env
                (mkRequest PUT (mutation_endpoint u) None) (range max_retries) 1 w) as H.
  unfold _make_request. destruct (request_attempts _ _ _ _ w) as [w' [d|e]]; exact H.
Qed.

Lemma unfollow_user_launches env u w :
  launches (trace (unfollow_user env u w).1) = launches (trace w).
Proof.
  unfold unfollow_user.
  pose proof (request_attempts_launches env
                (mkRequest DELETE (mutation_endpoint u) None) (range max_retries) 1 w) as H.
  unfold _make_request. destruct (request_attempts _ _ _ _ w) as [w' [d|e]]; exact H.
Qed.

Lemma gather_launches {R : Type} (tasks : list (World → World * R)) :
  Forall (fun t => ∀ w, launches (trace (t w).1) = launches (trace w)) tasks →
  ∀ w, launches (trace (gather tasks w).1) = launches (trace w).
Proof.
  induction 1 as [|t ts Ht _ IH]; intros w; [done|].
  rewrite gather_cons. simpl. by rewrite IH, Ht.
Qed.

Lemma launch_all_launches v delay usernames :
  ∀ w, launches (trace (launch_all v delay usernames w))
       = launches (trace w) ++ (pair v <$> usernames).
Proof.
  unfold launch_all. induction usernames as [|u us IH]; intros w; simpl.
  - by rewrite app_nil_r.
  - rewrite IH, launches_sleep, launches_launch, <- app_assoc. done.
Qed.

Lemma batch_launches v op usernames delay w :
  (∀ u w', launches (trace (op u w').1) = launches (trace w')) →
  launches (trace (batch v op usernames delay w).1)
  = launches (trace w) ++ (pair v <$> usernames).
Proof.
  intros Hop. unfold batch.
  pose proof (gather_launches (op <$> usernames)) as Hg.
  destruct (gather (op <$> usernames) (launch_all v delay usernames w))
    as [w' rs] eqn:Heq. simpl.
  replace w' with (gather (op <$> usernames) (launch_all v delay usernames w)).1
    by (by rewrite Heq).
  rewrite Hg, launch_all_launches; [done|].
  apply Forall_fmap, Forall_forall. intros u _ w0. apply Hop.
Qed.

Lemma slices_cover {A : Type} (l : list A) (step : nat) :
  (0 < step)%nat →
  ∀ count start, (length l - start ≤ step * count)%nat →
    concat ((fun i => slice l i (i + step)) <$> range_from start step count)
    = drop start l.
Proof.
  intros Hstep. induction count as [|count IH]; intros start Hlen; simpl.
  - symmetry. apply drop_ge. lia.
  - rewrite IH by lia. unfold slice.
    replace (start + step - start)%nat with step by lia.
    rewrite <- (drop_drop l step start). apply take_drop.
Qed.

Lemma batches_cover {A : Type} (l : list A) (step : nat) :
  (0 < step)%nat →
  concat ((fun i => slice l i (i + step)) <$> range_step (length l) step) = l.
Proof.
  intros Hstep. unfold range_step. rewrite slices_cover; [done|done|].
  pose proof (Nat.div_mod_eq (length l + step - 1) step) as Hd.
  pose proof (Nat.mod_upper_bound (length l + step - 1) step ltac:(lia)). lia.
Qed.

Lemma stream_loop_launches v
    (batch_op : list string → Z → World → World * gmap string bool)
    (users : list string) (size : nat) (delay : Z) :
  (∀ b d w, launches (trace (batch_op b d w).1) = launches (trace w) ++ (pair v <$> b)) →
  ∀ starts st,
    launches (trace (foldl (stream_round batch_op users size delay) st starts).1)
    = launches (trace st.1)
      ++ (pair v <$> concat ((fun i => slice users i (i + size)) <$> starts)).
Proof.
  intros Hop. induction starts as [|i rest IH]; intros [w results].
  - simpl. by rewrite app_nil_r.
  - cbn [foldl]. rewrite IH. rewrite fmap_cons. cbn [concat].
    rewrite fmap_app, app_assoc. f_equal.
    unfold stream_round. specialize (Hop (slice users i (i + size)) 500 w).
    destruct (batch_op (slice users i (i + size)) 500 w) as [w1 br]. simpl in Hop.
    simpl. case_bool_decide; [rewrite launches_sleep|]; exact Hop.
Qed.

Lemma process_stream_launches v
    (batch_op : list string → Z → World → World * gmap string bool)
    (users : list string) (w : World) :
  (∀ b d w, launches (trace (batch_op b d w).1) = launches (trace w) ++ (pair v <$> b)) →
  launches (trace (process_stream batch_op users w).1)
  = launches (trace w) ++ (pair v <$> sorted users).
Proof.
  intros Hop. unfold process_stream. case_bool_decide as Hnil.
  - subst users. simpl. by rewrite app_nil_r.
  - cbv zeta. rewrite (stream_loop_launches v batch_op (sorted users) 5 1500 Hop).
    by rewrite (batches_cover (sorted users) 5) by lia.
Qed.

(** C9: the follow stream and the unfollow stream each create their
    mutation calls in lexicographically sorted order of the usernames, so
    two runs given the same sets (listed in any order, against any behaviour
    of the service) create them in the same order. *)
Theorem mutations_in_sorted_order (env : Env) (users : list string) (w : World) :
  launches (trace (_process_follows env users w).1)
    = launches (trace w) ++ (pair Follow <$> sorted users)
  ∧ launches (trace (_process_unfollows env users w).1)
    = launches (trace w) ++ (pair Unfollow <$> sorted users)
  ∧ Sorted str_le (sorted users)
  ∧ sorted users ≡ₚ users
  ∧ ∀ env' users', users' ≡ₚ users →
      launches (trace (_process_follows env' users' w).1)
        = launches (trace (_process_follows env users w).1)
      ∧ launches (trace (_process_unfollows env' users' w).1)
        = launches (trace (_process_unfollows env users w).1).
Proof.
  assert (Hf : ∀ e us, launches (trace (_process_follows e us w).1)
                       = launches (trace w) ++ (pair Follow <$> sorted us)).
  { intros e us. apply process_stream_launches. intros b d w0.
    apply batch_launches. intros u w'. apply follow_user_launches. }
  assert (Hu : ∀ e us, launches (trace (_process_unfollows e us w).1)
                       = launches (trace w) ++ (pair Unfollow <$> sorted us)).
  { intros e us. apply process_stream_launches. intros b d w0.
    apply batch_launches. intros u w'. apply unfollow_user_launches. }
  repeat split.
  - apply Hf.
  - apply Hu.
  - apply sorted_Sorted.
  - apply sorted_Permutation.
  - rewrite !Hf. by rewrite (sorted_canonical users' users).
  - rewrite !Hu. by rewrite (sorted_canonical users' users).
Qed.

Example follows_are_sorted :
  launches (trace (_process_follows (scripted_env [] 0) ["zoe"; "bob"; "amy"; "Bob"]
                     initial_world).1)
  = [(Follow, "Bob"); (Follow, "amy"); (Follow, "bob"); (Follow, "zoe")].
Proof. vm_compute. reflexivity. Qed.

End MutationOrder.

(** ** Retry policy ([_make_request]) *)

Section Retry.
Import Models Client Observe.

Lemma range_max_retries : range max_retries = [0; 1; 2].
Proof. reflexivity. Qed.

(** Every pass through the loop body sends exactly one request and uses up
    one of the attempts, whatever the answer is. *)
Lemma request_attempts_issued env req attempts :
  ∀ retry_delay w,
    (issued (request_attempts env req attempts retry_delay w).1
     ≤ issued w + length attempts)%nat.
Proof.
  induction attempts as [|attempt rest IH]; intros retry_delay w.
  - simpl. lia.
  - cbn [request_attempts length].
    destruct (reply env (issued w) req) as [r|].
    + cbn zeta.
      destruct (if status r =? 429 then _ else None) as [rl|].
      * etrans; [apply IH|]. simpl. lia.
      * destruct (400 <=? status r); [|simpl; lia].
        destruct (is_gateway_error (status r) && (attempt <? max_retries - 1)).
        -- etrans; [apply IH|]. simpl. lia.
        -- simpl. lia.
    + destruct (attempt <? max_retries - 1).
      * etrans; [apply IH|]. simpl. lia.
      * simpl. lia.
Qed.

Lemma make_request_at_most_three env req w :
  (issued (_make_request env req w).1 ≤ issued w + 3)%nat.
Proof. apply (request_attempts_issued env req [0; 1; 2] 1 w). Qed.





(** A 429 without any rate-limit information is an ordinary error status:
    it is raised at once. *)
Lemma rate_limit_unknown_raises env req w r :
  reply env (issued w) req = Answer r →
  status r = 429 →
  update_rate_limit (headers r) (rate_limit w) = None →
  (_make_request env req w).2 = Raise (ClientResponseError 429).
Proof.
  intros Hreply Hstatus Hrl. unfold _make_request. rewrite range_max_retries.
  cbn [request_attempts]. rewrite Hreply. cbn zeta.
  rewrite Hstatus. simpl (429 =? 429).
  cbn [rate_limit set_rate_limit send]. rewrite Hrl. reflexivity.
Qed.

(** The retry test of the specification: 503, 503, 200 succeeds after two
    retries with delays of 1 and 2 seconds. *)
Example retry_with_backoff :
  let req := mkRequest GET "/users/x/followers" (Some (100, 1)) in
  _make_request (scripted_env [plain 503 []; plain 503 []; plain 200 ["a"]] 0)
    req initial_world
  = (mkWorld 3 None [EvRequest req; EvSleep 1000; EvRequest req; EvSleep 2000;
                     EvRequest req],
     Ok (DJson (JList ["a"]))).
Proof. reflexivity. Qed.

End Retry.

(** ** Paginated fetch ([get_followers], [get_following]) *)

Section Pagination.
Import Models Client Observe.

Lemma requests_app (t1 t2 : list Event) :
  requests (t1 ++ t2) = requests t1 ++ requests t2.
Proof. apply omap_app. Qed.

Lemma pages_requested_send w req :
  pages_requested (trace (send w req))
  = pages_requested (trace w) ++ from_option (fun p => [p.2]) [] (params req).
Proof.
  unfold pages_requested, send; simpl. rewrite requests_app, omap_app. simpl.
  by destruct (params req).
Qed.

(** An answer below 400 ends the request at once. *)
Lemma make_request_success env req w r :
  reply env (issued w) req = Answer r →
  status r < 400 →
  _make_request env req w
  = (set_rate_limit (update_rate_limit (headers r) (rate_limit w)) (send w req),
     Ok (if content_type_json r then DJson (body r) else DJson (JObject []))).
Proof.
  intros Hreply Hst. unfold _make_request. rewrite range_max_retries.
  cbn [request_attempts]. rewrite Hreply. cbn zeta.
  replace (status r =? 429) with false by (symmetry; apply Z.eqb_neq; lia).
  replace (400 <=? status r) with false by (symmetry; apply Z.leb_gt; lia).
  reflexivity.
Qed.

(** One round of the loop when the page is served. *)
Lemma list_pages_round env resource username max_pages fuel page acc w h items :
  page_limit_reached max_pages page = false →
  reply env (issued w) (page_request resource username page)
    = Answer (mkResponse 200 h true (JList items)) →
  let w1 := set_rate_limit (update_rate_limit h (rate_limit w))
              (send w (page_request resource username page)) in
  list_pages (S fuel) env resource username max_pages page acc w
  = if bool_decide (llen items < PER_PAGE)
    then (w1, Some (Ok (acc ++ items)))
    else list_pages fuel env resource username max_pages (page + 1) (acc ++ items) w1.
Proof.
  intros Hlim Hreply w1. cbn [list_pages]. rewrite Hlim.
  rewrite (make_request_success env _ w _ Hreply) by (simpl; lia).
  cbn [content_type_json body headers truthy logins_of len]. fold w1.
  destruct items as [|x items].
  - rewrite (bool_decide_true (llen [] < PER_PAGE)) by (unfold llen, PER_PAGE; simpl; lia).
    rewrite (bool_decide_true ([] = [])) by done. cbn [negb].
    by rewrite app_nil_r.
  - rewrite (bool_decide_false (x :: items = [])) by done. cbn [negb].
    case_bool_decide as Hlt.
    + by rewrite (proj2 (Z.ltb_lt _ _) Hlt).
    + by rewrite (proj2 (Z.ltb_ge _ _)) by lia.
Qed.

Lemma pages_requested_round rl resource username page w :
  pages_requested
    (trace (set_rate_limit rl (send w (page_request resource username page))))
  = pages_requested (trace w) ++ [page].
Proof. apply (pages_requested_send w (page_request resource username page)). Qed.

Lemma list_pages_limit fuel env resource username max_pages page acc w :
  page_limit_reached max_pages page = true →
  list_pages (S fuel) env resource username max_pages page acc w = (w, Some (Ok acc)).
Proof. intros Hlim. cbn [list_pages]. by rewrite Hlim. Qed.

(** The loop run for [k] pages from any of its states. *)
Lemma list_pages_run pages hdrs clk resource username max_pages :
  ∀ (k : nat) (page : Z) (acc : list string) (w : World) (fuel : nat),
    (1 ≤ k)%nat → (k < fuel)%nat →
    (∀ p, page <= p < page + Z.of_nat k - 1 → PER_PAGE <= llen (pages p)) →
    (llen (pages (page + Z.of_nat k - 1)) < PER_PAGE
     ∨ page_limit_reached max_pages (page + Z.of_nat k) = true) →
    (∀ p, page <= p < page + Z.of_nat k → page_limit_reached max_pages p = false) →
    let res := list_pages fuel (paged_env pages hdrs clk) resource username
                 max_pages page acc w in
    res.2 = Some (Ok (acc ++ concat (pages <$> seqZ page (Z.of_nat k))))
    ∧ pages_requested (trace res.1)
      = pages_requested (trace w) ++ seqZ page (Z.of_nat k).
Proof.
  induction k as [|k IH]; intros page acc w fuel Hk Hfuel Hfull Hstop Hlim; [lia|].
  destruct fuel as [|fuel]; [lia|]. cbv zeta.
  rewrite (list_pages_round _ _ _ _ _ _ _ _ (hdrs (issued w)) (pages page))
    by ((apply Hlim; lia) || reflexivity).
  rewrite (seqZ_cons page (Z.of_nat (S k))) by lia.
  rewrite fmap_cons. cbn [concat].
  replace (Z.pred (Z.of_nat (S k))) with (Z.of_nat k) by lia.
  destruct k as [|k].
  - (* the last page of the run *)
    replace (page + Z.of_nat 1 - 1) with page in Hstop by lia.
    simpl (seqZ _ (Z.of_nat 0)). simpl (concat _). rewrite app_nil_r.
    case_bool_decide as Hshort.
    + split; [done|]. apply pages_requested_round.
    + destruct Hstop as [Hstop|Hstop]; [lia|].
      destruct fuel as [|fuel]; [lia|].
      rewrite list_pages_limit by (rewrite <- Hstop; f_equal; lia).
      split; [done|]. apply pages_requested_round.
  - rewrite bool_decide_false by (specialize (Hfull page); lia).
    destruct (IH (page + 1) (acc ++ pages page)
                (set_rate_limit (update_rate_limit (hdrs (issued w)) (rate_limit w))
                   (send w (page_request resource username page))) fuel)
      as [Hres Hreq]; try lia.
    + intros p Hp. apply Hfull. lia.
    + replace (page + 1 + Z.of_nat (S k) - 1) with (page + Z.of_nat (S (S k)) - 1) by lia.
      replace (page + 1 + Z.of_nat (S k)) with (page + Z.of_nat (S (S k))) by lia.
      exact Hstop.
    + intros p Hp. apply Hlim. lia.
    + cbv zeta in Hres, Hreq. unfold Z.succ. rewrite Hres, Hreq.
      rewrite pages_requested_round, <- !app_assoc. done.
Qed.




(** A negative [max_pages] stops the loop before the first request. *)
Lemma negative_max_pages_fetches_nothing fuel env self_username username m w :
  m < 0 →
  get_followers (S fuel) env self_username username (Some m) w = (w, Some (Ok [])).
Proof.
  intros Hm. unfold get_followers. apply list_pages_limit.
  unfold page_limit_reached.
  rewrite (proj2 (Z.eqb_neq _ _)) by lia. rewrite (proj2 (Z.ltb_lt _ _)) by lia. done.
Qed.

(** [get_following] runs the very same loop on the other resource. *)
Lemma get_following_in_order (pages : Z → list string) (hdrs : nat → Headers)
    (clk : nat → datetime) (self_username : string) (username : option string)
    (k fuel : nat) (w : World) :
  (1 ≤ k)%nat →
  (∀ p, 1 <= p < Z.of_nat k → PER_PAGE <= llen (pages p)) →
  llen (pages (Z.of_nat k)) < PER_PAGE →
  (k < fuel)%nat →
  let res := get_following fuel (paged_env pages hdrs clk) self_username username None w in
  res.2 = Some (Ok (concat (pages <$> seqZ 1 (Z.of_nat k))))
  ∧ pages_requested (trace res.1) = pages_requested (trace w) ++ seqZ 1 (Z.of_nat k).
Proof.
  intros Hk Hfull Hshort Hfuel res.
  apply (list_pages_run pages hdrs clk "following"
           (username_or username self_username) None k 1 [] w fuel); try done.
  - intros p Hp. apply Hfull. lia.
  - left. by replace (1 + Z.of_nat k - 1) with (Z.of_nat k) by lia.
Qed.

(** With a positive [max_pages] the loop always ends, after at most
    [max_pages] requests, however many full pages the service has. *)
Lemma list_pages_bounded pages hdrs clk resource username (m : Z) :
  0 < m →
  ∀ (n : nat) (page : Z) (acc : list string) (w : World) (fuel : nat),
    1 <= page → m - page + 1 <= Z.of_nat n → (n < fuel)%nat →
    ∃ k : nat, (k ≤ n)%nat ∧
      let res := list_pages fuel (paged_env pages hdrs clk) resource username
                   (Some m) page acc w in
      res.2 = Some (Ok (acc ++ concat (pages <$> seqZ page (Z.of_nat k))))
      ∧ pages_requested (trace res.1)
        = pages_requested (trace w) ++ seqZ page (Z.of_nat k).
Proof.
  intros Hm. induction n as [|n IH]; intros page acc w fuel Hpage Hn Hfuel;
    (destruct fuel as [|fuel]; [lia|]).
  - exists 0%nat. split; [lia|].
    rewrite list_pages_limit; [simpl; by rewrite !app_nil_r|].
    unfold page_limit_reached.
    rewrite (proj2 (Z.eqb_neq _ _)) by lia. rewrite (proj2 (Z.ltb_lt _ _)) by lia. done.
  - destruct (page_limit_reached (Some m) page) eqn:Hlim.
    + exists 0%nat. split; [lia|].
      rewrite list_pages_limit by done. simpl. by rewrite !app_nil_r.
    + assert (page <= m) as Hle.
      { unfold page_limit_reached in Hlim.
        rewrite (proj2 (Z.eqb_neq _ _)) in Hlim by lia. simpl in Hlim.
        by apply Z.ltb_ge in Hlim. }
      rewrite (list_pages_round _ _ _ _ _ _ _ _ (hdrs (issued w)) (pages page))
        by (done || reflexivity).
      case_bool_decide as Hshort.
      * exists 1%nat. split; [lia|]. cbv zeta. change (Z.of_nat 1) with 1.
        rewrite (seqZ_cons page 1) by lia. change (Z.pred 1) with 0.
        rewrite (seqZ_nil (Z.succ page) 0) by lia.
        rewrite fmap_cons, fmap_nil. cbn [concat fst snd]. rewrite !app_nil_r.
        split; [done|]. apply pages_requested_round.
      * destruct (IH (page + 1) (acc ++ pages page)
                    (set_rate_limit (update_rate_limit (hdrs (issued w)) (rate_limit w))
                       (send w (page_request resource username page))) fuel)
          as (k & Hk & Hres & Hreq); try lia.
        exists (S k). split; [lia|].
        rewrite (seqZ_cons page (Z.of_nat (S k))) by lia.
        replace (Z.pred (Z.of_nat (S k))) with (Z.of_nat k) by lia.
        rewrite fmap_cons. cbn [concat]. unfold Z.succ. cbv zeta in Hres, Hreq |- *.
        rewrite Hres, Hreq, pages_requested_round, <- !app_assoc. done.
Qed.

Lemma max_pages_bounds_requests pages hdrs clk self_username username (m : Z)
    (fuel : nat) (w : World) :
  0 < m → (Z.to_nat m < fuel)%nat →
  ∃ k : nat, Z.of_nat k <= m ∧
    let res := get_followers fuel (paged_env pages hdrs clk) self_username username
                 (Some m) w in
    res.2 = Some (Ok (concat (pages <$> seqZ 1 (Z.of_nat k))))
    ∧ pages_requested (trace res.1) = pages_requested (trace w) ++ seqZ 1 (Z.of_nat k).
Proof.
  intros Hm Hfuel.
  destruct (list_pages_bounded pages hdrs clk "followers"
              (username_or username self_username) m Hm (Z.to_nat m) 1 [] w fuel)
    as (k & Hk & H); try lia.
  exists k. split; [lia | exact H].
Qed.

End Pagination.

(** ** A request that is rate limited on every attempt *)

Section RateLimitExhaustion.
Import Models Client Observe.






(** End to end: one full page, then a persistent rate limit.  Both list
    operations hand the first page back as if it were the whole list, and a
    follow that is rate limited three times is reported as done. *)
Example truncated_followers :
  (get_followers 5 one_page_then_limited "me" None None initial_world).2
  = Some (Ok (replicate 100 "user"))
  ∧ (get_following 5 one_page_then_limited "me" None None initial_world).2
    = Some (Ok (replicate 100 "user")).
Proof. split; vm_compute; reflexivity. Qed.

Example rate_limited_follow_reports_success :
  (follow_user
     (scripted_env [too_many_requests 5; too_many_requests 5; too_many_requests 5] 0)
     "amy" initial_world).2 = Ok true.
Proof. reflexivity. Qed.

End RateLimitExhaustion.

(** ** Discovery ([find_users_to_promote]) *)

Section Discovery.
Import Models Client Manager Promotion Observe.

(** The keyword [pages_map] names no parameter of [get_followers_batch]:
    the call raises [TypeError] before the body runs. *)
Lemma pages_map_is_not_a_parameter fuel env self_username usernames pages_map w :
  call_get_followers_batch fuel env self_username usernames
    [("pages_map", PyDict pages_map)] w
  = (w, Some (Raise TypeError)).
Proof.
  unfold call_get_followers_batch. rewrite bool_decide_false; [done|].
  intros H. apply Forall_cons in H as [H _]. simpl in H.
  unfold get_followers_batch_keywords in H.
  apply list_elem_of_singleton in H. discriminate.
Qed.

(** With the keyword [max_pages] the same call does reach the body. *)
Lemma max_pages_is_a_parameter fuel env self_username usernames m w :
  call_get_followers_batch fuel env self_username usernames [("max_pages", PyInt m)] w
  = get_followers_batch fuel env self_username usernames m w.
Proof.
  unfold call_get_followers_batch. rewrite bool_decide_true; [done|].
  apply Forall_cons. split; [|apply Forall_nil_2].
  simpl. unfold get_followers_batch_keywords. apply list_elem_of_singleton. done.
Qed.

Lemma requests_sleep ms w : requests (trace (sleep ms w)) = requests (trace w).
Proof. unfold sleep, requests; simpl. rewrite omap_app. simpl. apply app_nil_r. Qed.

(** A level of the search never collects anybody and never sends a request. *)
Lemma scan_queue_finds_nothing fuel env rng cfg excluded count deeper queue :
  ∀ starts s w,
    promoted s = [] → next_level s = [] →
    ∃ w' s', scan_queue fuel env rng cfg excluded count deeper queue starts s w
             = (w', Some s')
             ∧ promoted s' = [] ∧ next_level s' = []
             ∧ requests (trace w') = requests (trace w).
Proof.
  induction starts as [|i rest IH]; intros s w Hp Hn.
  - exists w, s. done.
  - cbn [scan_queue]. cbv zeta. case_bool_decide as Hbatch.
    + by apply IH.
    + destruct (pages_for rng cfg _ (draws s)) as [pages_map draws'].
      rewrite pages_map_is_not_a_parameter. rewrite Hp, Hn.
      destruct (count <=? llen []) eqn:Hcount.
      * eexists w, _. split; [reflexivity|]. done.
      * match goal with
        | |- context [scan_queue _ _ _ _ _ _ _ _ rest ?s1 ?w1] =>
            destruct (IH s1 w1) as (w' & s' & Heq & Hp' & Hn' & Hreq); [done | done |]
        end.
        exists w', s'. rewrite Heq. rewrite Hreq, requests_sleep. done.
Qed.

Lemma search_levels_finds_nothing fuel env rng cfg excluded count max_depth :
  ∀ levels queue current_depth visited draws w,
    (Z.to_nat (max_depth - current_depth) ≤ levels)%nat →
    ∃ w', search_levels levels fuel env rng cfg excluded count max_depth queue
            current_depth [] visited draws w = (w', Some [])
          ∧ requests (trace w') = requests (trace w).
Proof.
  induction levels as [|levels IH]; intros queue current_depth visited draws w Hlev.
  - cbn [search_levels].
    destruct (current_depth <? max_depth) eqn:Hd.
    + apply Z.ltb_lt in Hd. lia.
    + rewrite andb_false_r. by exists w.
  - cbn [search_levels].
    destruct (negb (bool_decide (queue = [])) && (llen [] <? count)
              && (current_depth <? max_depth)) eqn:Hcond; [|by exists w].
    destruct (scan_queue_finds_nothing fuel env rng cfg excluded count
                (current_depth + 1 <? max_depth) queue
                (range_step (length queue) 3) (mkSearch [] visited [] draws) w)
      as (w1 & s1 & Heq & Hp & Hn & Hreq); [done | done |].
    rewrite Heq, Hp, Hn.
    destruct (IH (take 50 []) (current_depth + 1) (Promotion.visited s1)
                (Promotion.draws s1) w1) as (w2 & Heq2 & Hreq2); [lia|].
    exists w2. rewrite Heq2, Hreq2, Hreq. done.
Qed.

(** Whatever the followers, the service and the random source are, the
    search sends no request and comes back with no candidate. *)
Lemma find_users_to_promote_finds_nothing fuel env rng cfg current_followers ban_list
    count max_depth w :
  let res := find_users_to_promote fuel env rng cfg current_followers ban_list
               count max_depth w in
  res.2 = Some [] ∧ requests (trace res.1) = requests (trace w).
Proof.
  unfold find_users_to_promote. cbv zeta. case_bool_decide; [done|].
  match goal with
  | |- context [search_levels ?l fuel env rng cfg ?ex count max_depth ?q 0 [] ∅ 0%nat w] =>
      destruct (search_levels_finds_nothing fuel env rng cfg ex count max_depth
                  l q 0 ∅ 0%nat w) as (w' & Heq & Hreq); [lia|]
  end.
  rewrite Heq. simpl. split; [|done].
  unfold prefix. by destruct (0 <=? count); rewrite take_nil.
Qed.

(** C2 (failing input): the only follower is [alice], whose follower pages
    hold [bob] and [carol].  The batched fetch on its own succeeds and
    returns them, yet the search, which passes it the keyword [pages_map],
    returns no candidate and never contacts the service. *)
Theorem discovery_never_fetches :
  (get_followers_batch 5 two_followers "me" ["alice"] 1 initial_world).2
    = Some (Ok [("alice", ["bob"; "carol"])])
  ∧ (find_users_to_promote 5 two_followers first_k (default_config "me")
       {["alice"]} ∅ 2 1 initial_world).2 = Some []
  ∧ requests (trace (find_users_to_promote 5 two_followers first_k (default_config "me")
                       {["alice"]} ∅ 2 1 initial_world).1) = [].
Proof.
  split; [vm_compute; reflexivity|].
  apply (find_users_to_promote_finds_nothing 5 two_followers first_k (default_config "me")
           {["alice"]} ∅ 2 1 initial_world).
Qed.

(** What the loop body would collect from that fetch result. *)
Example candidates_from_a_successful_fetch :
  scan_dict ({["alice"; "me"]} : gset string) 2 false [("alice", ["bob"; "carol"])] [] []
  = (["bob"; "carol"], []).
Proof. vm_compute. reflexivity. Qed.

End Discovery.

(** ** More on the retry policy *)

Section RetryOutcomes.
Import Models Client ClientMore Observe.




(** Three connection failures: the request is sent three times, the two
    waits are both one second (the delay is not doubled on this path), and
    the third failure is raised. *)
Theorem connection_failures_fixed_delay (env : Env) (req : Request) (w : World) :
  (∀ n, (issued w ≤ n < issued w + 3)%nat → reply env n req = ConnectionFailure) →
  _make_request env req w
  = (mkWorld (issued w + 3) (rate_limit w)
       (trace w ++ [EvRequest req; EvSleep 1000; EvRequest req; EvSleep 1000;
                    EvRequest req]),
     Raise ClientError).
Proof.
  intros Hall. unfold _make_request. rewrite range_max_retries.
  cbn [request_attempts]. rewrite (Hall (issued w)) by lia.
  cbn [issued send sleep]. rewrite (Hall (S (issued w))) by lia.
  cbn [issued send sleep]. rewrite (Hall (S (S (issued w)))) by lia.
  change (0 <? max_retries - 1) with true. change (1 <? max_retries - 1) with true.
  change (2 <? max_retries - 1) with false. cbv iota.
  unfold send, sleep. cbn [issued rate_limit trace]. rewrite <- !app_assoc. cbn [app].
  replace (S (S (S (issued w)))) with (issued w + 3)%nat by lia. reflexivity.
Qed.

Lemma connection_failures_fixed_delay_witness :
  let req := mkRequest PUT "/user/following/amy" None in
  _make_request (scripted_env [] 0) req initial_world
  = (mkWorld (0 + 3) None
       ([] ++ [EvRequest req; EvSleep 1000; EvRequest req; EvSleep 1000; EvRequest req]),
     Raise ClientError).
Proof.
  intros req. apply (connection_failures_fixed_delay (scripted_env [] 0) req initial_world).
  intros n _. reflexivity.
Defined.



Lemma request_attempts_body env req attempts :
  ∀ retry_delay w j,
    (request_attempts env req attempts retry_delay w).2 = Ok (DJson j) →
    ∃ n r, (issued w ≤ n < issued w + length attempts)%nat
           ∧ issued (request_attempts env req attempts retry_delay w).1 = S n
           ∧ reply env n req = Answer r
           ∧ status r < 400
           ∧ j = (if content_type_json r then body r else JObject []).
Proof.
  induction attempts as [|attempt rest IH]; intros retry_delay w j; [done|].
  cbn [request_attempts length].
  destruct (reply env (issued w) req) as [r|] eqn:Hreply.
  - cbn zeta. destruct (if status r =? 429 then _ else None) as [rl|].
    + intros H. destruct (IH _ _ _ H) as (n & r' & Hn & Hiss & Hr & Hst & Hj).
      simpl in Hn. exists n, r'. repeat split; try done; lia.
    + destruct (400 <=? status r) eqn:Hle.
      * destruct (is_gateway_error (status r) && (attempt <? max_retries - 1));
          [|done].
        intros H. destruct (IH _ _ _ H) as (n & r' & Hn & Hiss & Hr & Hst & Hj).
        simpl in Hn. exists n, r'. repeat split; try done; lia.
      * intros H. exists (issued w), r. apply Z.leb_gt in Hle.
        repeat split; try done; try lia.
        simpl in H. destruct (content_type_json r); congruence.
  - destruct (attempt <? max_retries - 1); [|done].
    intros H. destruct (IH _ _ _ H) as (n & r' & Hn & Hiss & Hr & Hst & Hj).
    simpl in Hn. exists n, r'. repeat split; try done; lia.
Qed.

(** A body is returned only for an answer below 400: when [_make_request]
    returns a body, the last request it sent was answered with such a
    status, and the body is the decoded JSON of that answer ([{}] when the
    answer is not JSON). *)
Theorem returned_body_is_a_success (env : Env) (req : Request) (w : World) (j : Json) :
  (_make_request env req w).2 = Ok (DJson j) →
  ∃ n r, (issued w ≤ n < issued w + 3)%nat
         ∧ issued (_make_request env req w).1 = S n
         ∧ reply env n req = Answer r
         ∧ status r < 400
         ∧ j = (if content_type_json r then body r else JObject []).
Proof. apply (request_attempts_body env req [0; 1; 2] 1 w j). Qed.

Lemma returned_body_is_a_success_witness :
  let env := scripted_env [plain 503 []; plain 200 ["a"]] 0 in
  let req := mkRequest GET "/users/amy" None in
  ∃ n r, (0 ≤ n < 0 + 3)%nat
         ∧ issued (_make_request env req initial_world).1 = S n
         ∧ reply env n req = Answer r
         ∧ status r < 400
         ∧ JList ["a"] = (if content_type_json r then body r else JObject []).
Proof.
  intros env req.
  apply (returned_body_is_a_success env req initial_world (JList ["a"])). reflexivity.
Defined.

Lemma request_attempts_none env req attempts :
  ∀ retry_delay w,
    attempts ≠ [] →
    (∀ a, last attempts = Some a → max_retries - 1 <= a) →
    (request_attempts env req attempts retry_delay w).2 = Ok DNone →
    issued (request_attempts env req attempts retry_delay w).1
      = (issued w + length attempts)%nat
    ∧ ∃ r, reply env (issued w + length attempts - 1)%nat req = Answer r
           ∧ status r = 429.
Proof.
  induction attempts as [|attempt rest IH]; intros retry_delay w Hne Hlast; [done|].
  cbn [request_attempts length].
  assert (Hrest : rest = [] → (attempt <? max_retries - 1) = false).
  { intros ->. apply Z.ltb_ge, Hlast. reflexivity. }
  assert (Hrec : ∀ d w1, issued w1 = S (issued w) →
            (request_attempts env req rest d w1).2 = Ok DNone →
            (∃ r, reply env (issued w) req = Answer r ∧ status r = 429) ∨ rest ≠ [] →
            issued (request_attempts env req rest d w1).1 = (issued w + S (length rest))%nat
            ∧ ∃ r, reply env (issued w + S (length rest) - 1)%nat req = Answer r
                   ∧ status r = 429).
  { intros d w1 Hw1 Hres Hlast'. destruct rest as [|a rest'].
    - simpl. split; [lia|]. destruct Hlast' as [Hl|]; [|done].
      by replace (issued w + 1 - 1)%nat with (issued w) by lia.
    - destruct (IH d w1 ltac:(done) Hlast Hres) as [Hiss Hr].
      rewrite Hiss, Hw1. split; [simpl; lia|].
      replace (issued w + S (length (a :: rest')) - 1)%nat
        with (S (issued w) + length (a :: rest') - 1)%nat by (simpl; lia).
      by rewrite <- Hw1. }
  destruct (reply env (issued w) req) as [r|] eqn:Hreply.
  - cbn zeta. destruct (status r =? 429) eqn:H429.
    + destruct (rate_limit _) as [rl|] eqn:Hrl.
      * intros H. apply Hrec; [done | done |]. left. exists r.
        split; [done|]. by apply Z.eqb_eq.
      * apply Z.eqb_eq in H429. rewrite H429.
        change (400 <=? 429) with true.
        replace (is_gateway_error 429) with false by reflexivity. done.
    + destruct (400 <=? status r); [|simpl; by destruct (content_type_json r)].
      destruct (is_gateway_error (status r) && (attempt <? max_retries - 1)) eqn:Hgw;
        [|done].
      intros H. apply Hrec; [done | done |]. right. intros Hnil.
      rewrite (Hrest Hnil), andb_false_r in Hgw. done.
  - destruct (attempt <? max_retries - 1) eqn:Hlt; [|done].
    intros H. apply Hrec; [done | done |]. right. intros Hnil.
    by specialize (Hrest Hnil).
Qed.

(** [None] is returned in one way only: all three requests were sent and
    the third one was answered by 429. *)
Theorem none_means_rate_limited (env : Env) (req : Request) (w : World) :
  (_make_request env req w).2 = Ok DNone →
  issued (_make_request env req w).1 = (issued w + 3)%nat
  ∧ ∃ r, reply env (issued w + 2)%nat req = Answer r ∧ status r = 429.
Proof.
  intros H.
  destruct (request_attempts_none env req [0; 1; 2] 1 w ltac:(done)) as [Hiss Hr];
    [intros a [= <-]; reflexivity | exact H |].
  split; [exact Hiss|]. simpl in Hr.
  by replace (issued w + 3 - 1)%nat with (issued w + 2)%nat in Hr by lia.
Qed.

Lemma none_means_rate_limited_witness :
  let env := scripted_env [plain 503 []; plain 503 []; too_many_requests 5] 0 in
  let req := mkRequest GET "/users/amy" None in
  issued (_make_request env req initial_world).1 = (0 + 3)%nat
  ∧ ∃ r, reply env (0 + 2)%nat req = Answer r ∧ status r = 429.
Proof.
  intros env req. apply (none_means_rate_limited env req initial_world). reflexivity.
Defined.

Lemma request_attempts_keeps_rate_limit env req attempts :
  ∀ retry_delay w,
    is_Some (rate_limit w) →
    is_Some (rate_limit (request_attempts env req attempts retry_delay w).1).
Proof.
  induction attempts as [|attempt rest IH]; intros retry_delay w Hsome; [done|].
  cbn [request_attempts].
  destruct (reply env (issued w) req) as [r|].
  - cbn zeta.
    assert (is_Some (update_rate_limit (headers r) (rate_limit w))) as Hup.
    { unfold update_rate_limit. by destruct (x_ratelimit_limit (headers r)). }
    destruct (if status r =? 429 then _ else None) as [rl|].
    + by apply IH.
    + destruct (400 <=? status r); [|done].
      destruct (is_gateway_error (status r) && (attempt <? max_retries - 1)); [|done].
      by apply IH.
  - destruct (attempt <? max_retries - 1); [|done]. by apply IH.
Qed.

(** Rate-limit information, once recorded, is never dropped by a request. *)
Theorem rate_limit_never_forgotten (env : Env) (req : Request) (w : World) :
  is_Some (rate_limit w) →
  is_Some (rate_limit (_make_request env req w).1).
Proof. apply request_attempts_keeps_rate_limit. Qed.

Lemma rate_limit_never_forgotten_witness :
  is_Some (rate_limit
             (_make_request (scripted_env [plain 200 []] 0)
                (mkRequest GET "/users/amy" None)
                (mkWorld 0 (Some (mkRateLimit 60 59 0)) [])).1).
Proof.
  apply (rate_limit_never_forgotten (scripted_env [plain 200 []] 0)
           (mkRequest GET "/users/amy" None) (mkWorld 0 (Some (mkRateLimit 60 59 0)) [])).
  simpl. eauto.
Defined.


End RetryOutcomes.

(** ** More on the paginated fetch *)

Section PaginationBounds.
Import Models Client ClientMore Observe.


Lemma page_limit_positive (m page : Z) :
  0 < m → page_limit_reached (Some m) page = bool_decide (m < page).
Proof.
  intros Hm. unfold page_limit_reached.
  rewrite (proj2 (Z.eqb_neq _ _)) by lia. simpl.
  case_bool_decide; [by apply Z.ltb_lt | by apply Z.ltb_ge; lia].
Qed.

Lemma list_pages_terminates env resource username (m : Z) :
  0 < m →
  ∀ (n : nat) (page : Z) (acc : list string) (w : World) (fuel : nat),
    m - page + 1 <= Z.of_nat n → (n < fuel)%nat →
    let res := list_pages fuel env resource username (Some m) page acc w in
    is_Some res.2 ∧ (issued res.1 ≤ issued w + 3 * n)%nat.
Proof.
  intros Hm. induction n as [|n IH]; intros page acc w fuel Hn Hfuel;
    (destruct fuel as [|fuel]; [lia|]); cbn [list_pages];
    rewrite page_limit_positive by done.
  - rewrite bool_decide_true by lia. simpl. split; [eauto | lia].
  - case_bool_decide as Hlim; [simpl; split; [eauto | lia]|].
    pose proof (make_request_at_most_three env
                  (page_request resource username page) w) as H3.
    destruct (_make_request env (page_request resource username page) w)
      as [w1 [data|e]]; simpl in H3; [|simpl; split; [eauto | lia]].
    destruct (negb (truthy data)); [simpl; split; [eauto | lia]|].
    destruct (logins_of data) as [logins|e]; [|simpl; split; [eauto | lia]].
    destruct (len data <? PER_PAGE); [simpl; split; [eauto | lia]|].
    destruct (IH (page + 1) (acc ++ logins) w1 fuel) as [Hs Hi]; [lia | lia |].
    split; [exact Hs | lia].
Qed.

(** With a positive [max_pages] the fetch ends whatever the service does
    (errors, rate limits, endless full pages), after at most three requests
    per allowed page. *)
Theorem bounded_fetch_terminates (env : Env) (self_username : string)
    (username : option string) (m : Z) (fuel : nat) (w : World) :
  0 < m → (Z.to_nat m < fuel)%nat →
  let res := get_followers fuel env self_username username (Some m) w in
  is_Some res.2 ∧ (issued res.1 ≤ issued w + 3 * Z.to_nat m)%nat.
Proof.
  intros Hm Hfuel. unfold get_followers.
  apply (list_pages_terminates env "followers" _ m Hm (Z.to_nat m) 1 [] w fuel); lia.
Qed.

Lemma bounded_fetch_terminates_witness :
  let res := get_followers 3 one_page_then_limited "me" None (Some 2) initial_world in
  is_Some res.2 ∧ (issued res.1 ≤ 0 + 3 * Z.to_nat 2)%nat.
Proof.
  apply (bounded_fetch_terminates one_page_then_limited "me" None 2 3 initial_world).
  - lia.
  - simpl. lia.
Defined.




Lemma dict_set_keys {V : Type} (d : list (string * V)) (k : string) (v : V) :
  (dict_set d k v).*1 = if decide (k ∈ d.*1) then d.*1 else d.*1 ++ [k].
Proof.
  induction d as [|[k' v'] d IH].
  - destruct (decide (k ∈ ([] : list (string * V)).*1)) as [Hin|]; [|done].
    by apply elem_of_nil in Hin.
  - cbn [dict_set]. case_bool_decide as Hk.
    + subst k'. rewrite !fmap_cons. cbn [fst]. rewrite decide_True by left. done.
    + rewrite !fmap_cons. cbn [fst]. rewrite IH.
      destruct (decide (k ∈ d.*1)) as [Hin|Hnin].
      * rewrite decide_True by (by right). done.
      * rewrite decide_False; [done|]. rewrite elem_of_cons. naive_solver.
Qed.

Lemma dict_set_NoDup {V : Type} (d : list (string * V)) (k : string) (v : V) :
  NoDup d.*1 → NoDup (dict_set d k v).*1.
Proof.
  intros Hd. rewrite dict_set_keys. case_decide; [done|].
  apply NoDup_app. split; [done|]. split; [|apply NoDup_singleton].
  intros x Hx Hxk. apply list_elem_of_singleton in Hxk. by subst.
Qed.

Lemma dict_set_key_set {V : Type} (d : list (string * V)) (k : string) (v : V) :
  (list_to_set (dict_set d k v).*1 : gset string) = list_to_set d.*1 ∪ {[k]}.
Proof.
  rewrite dict_set_keys. case_decide as Hk.
  - apply (elem_of_list_to_set (C := gset string)) in Hk. set_solver.
  - rewrite list_to_set_app_L. simpl. set_solver.
Qed.

Lemma gather_fetches_terminate env self_username (m : Z) (fuel : nat) :
  0 < m → (Z.to_nat m < fuel)%nat →
  ∀ usernames w,
    Forall is_Some
      (gather ((fun u => get_followers fuel env self_username (Some u) (Some m))
                 <$> usernames) w).2.
Proof.
  intros Hm Hfuel. induction usernames as [|u us IH]; intros w.
  - constructor.
  - rewrite fmap_cons, gather_cons. cbn [snd]. constructor; [|apply IH].
    unfold get_followers.
    apply (list_pages_terminates env "followers" _ m Hm (Z.to_nat m) 1 [] w fuel); lia.
Qed.

Lemma collect_followers_keys (usernames : list string) :
  ∀ (results : list (option (Outcome (list string)))) (d : list (string * list string)),
    length results = length usernames →
    Forall is_Some results →
    NoDup d.*1 →
    ∃ d', foldl (fun (acc : option (Outcome (list (string * list string))))
                     '(username, result) =>
                   match acc, result with
                   | Some (Ok d), Some (Raise _) => Some (Ok (dict_set d username []))
                   | Some (Ok d), Some (Ok fs) => Some (Ok (dict_set d username fs))
                   | Some (Ok d), None => None
                   | _, _ => acc
                   end)
                (Some (Ok d)) (zip usernames results) = Some (Ok d')
          ∧ NoDup d'.*1
          ∧ (list_to_set d'.*1 : gset string) = list_to_set d.*1 ∪ list_to_set usernames.
Proof.
  induction usernames as [|u us IH]; intros results d Hlen Hall Hnd.
  - exists d. simpl. split; [done|]. split; [done|]. set_solver.
  - destruct results as [|r rs]; [done|]. simpl in Hlen.
    apply Forall_cons in Hall as [[o Ho] Hall]. subst r. cbn [zip zip_with foldl].
    destruct o as [fs|e].
    + destruct (IH rs (dict_set d u fs)) as (d' & Heq & Hnd' & Hset);
        [lia | done | by apply dict_set_NoDup |].
      exists d'. split; [exact Heq|]. split; [done|].
      rewrite Hset, dict_set_key_set. set_solver.
    + destruct (IH rs (dict_set d u [])) as (d' & Heq & Hnd' & Hset);
        [lia | done | by apply dict_set_NoDup |].
      exists d'. split; [exact Heq|]. split; [done|].
      rewrite Hset, dict_set_key_set. set_solver.
Qed.

(** The batched fetch with a positive [max_pages] always comes back with a
    dict, never with an exception, and the dict has exactly one entry for
    every distinct subject, whatever happened to the single fetches. *)
Theorem followers_batch_covers_subjects (env : Env) (self_username : string)
    (usernames : list string) (m : Z) (fuel : nat) (w : World) :
  0 < m → (Z.to_nat m < fuel)%nat →
  ∃ d, (get_followers_batch fuel env self_username usernames m w).2 = Some (Ok d)
       ∧ NoDup d.*1
       ∧ (list_to_set d.*1 : gset string) = list_to_set usernames.
Proof.
  intros Hm Hfuel. unfold get_followers_batch.
  pose proof (gather_fetches_terminate env self_username m fuel Hm Hfuel usernames w)
    as Hall.
  pose proof (gather_length
                ((fun u => get_followers fuel env self_username (Some u) (Some m))
                   <$> usernames) w) as Hlen.
  destruct (gather _ w) as [w' results]. cbn [snd] in *.
  rewrite length_fmap in Hlen.
  destruct (collect_followers_keys usernames results [] Hlen Hall (NoDup_nil_2))
    as (d & Heq & Hnd & Hset).
  exists d. split; [exact Heq|]. split; [done|]. rewrite Hset. set_solver.
Qed.

Lemma followers_batch_covers_subjects_witness :
  ∃ d, (get_followers_batch 2 (scripted_env [plain 404 []; plain 200 ["x"]] 0) "me"
          ["amy"; "bob"; "amy"] 1 initial_world).2 = Some (Ok d)
       ∧ NoDup d.*1
       ∧ (list_to_set d.*1 : gset string) = list_to_set ["amy"; "bob"; "amy"].
Proof.
  apply (followers_batch_covers_subjects (scripted_env [plain 404 []; plain 200 ["x"]] 0)
           "me" ["amy"; "bob"; "amy"] 1 2 initial_world).
  - lia.
  - simpl. lia.
Defined.


End PaginationBounds.

(** ** More on the mutation streams *)

Section StreamResults.
Import Models Client Manager Observe.

Lemma stream_loop_dom
    (batch_op : list string → Z → World → World * gmap string bool)
    (users : list string) (size : nat) (delay : Z) :
  (∀ b d w, dom (batch_op b d w).2 = list_to_set b) →
  ∀ starts st,
    dom (foldl (stream_round batch_op users size delay) st starts).2
    = dom st.2 ∪ list_to_set (concat ((fun i => slice users i (i + size)) <$> starts)).
Proof.
  intros Hop. induction starts as [|i rest IH]; intros [w results].
  - simpl. set_solver.
  - cbn [foldl]. rewrite IH. rewrite fmap_cons. cbn [concat].
    rewrite list_to_set_app_L.
    unfold stream_round. specialize (Hop (slice users i (i + size)) 500 w).
    destruct (batch_op (slice users i (i + size)) 500 w) as [w1 br]. simpl in Hop.
    simpl. rewrite dom_union_L, Hop. set_solver.
Qed.

(** Every user handed to a stream gets a verdict, and nobody else does: the
    keys of the result of [_process_follows] and of [_process_unfollows] are
    exactly the users. *)
Theorem stream_results_cover_users (env : Env) (users : list string) (w : World) :
  dom (_process_follows env users w).2 = list_to_set users
  ∧ dom (_process_unfollows env users w).2 = list_to_set users.
Proof.
  assert (H : ∀ batch_op : list string → Z → World → World * gmap string bool,
            (∀ b d w, dom (batch_op b d w).2 = list_to_set b) →
            dom (process_stream batch_op users w).2 = list_to_set users).
  { intros batch_op Hop. unfold process_stream. case_bool_decide as Hnil.
    - subst. simpl. set_solver.
    - cbv zeta. rewrite (stream_loop_dom batch_op (sorted users) 5 1500 Hop).
      rewrite (batches_cover (sorted users) 5) by lia. simpl.
      rewrite dom_empty_L, (left_id_L ∅ (∪)).
      apply set_eq. intros u. rewrite !elem_of_list_to_set.
      by rewrite (sorted_Permutation users). }
  split; apply H; intros b d w0; apply batch_domain.
Qed.

End StreamResults.

(** ** Tracking of the promoted users *)

Section TrackingProperties.
Import Models Client Manager Promotion Tracking Observe.

Lemma classify_cons files days user rest r :
  classify files days (user :: rest) r
  = let c := classify files days rest (S r) in
    if is_expired (now files r) user days
    then (c.1.1, username user :: c.1.2, c.2)
    else (username user :: c.1.1, c.1.2, c.2).
Proof.
  cbn [classify]. destruct (classify files days rest (S r)) as [[a x] r'].
  by destruct (is_expired _ _ _).
Qed.

Lemma keep_active_cons files days user rest r :
  keep_active files days (user :: rest) r
  = let k := keep_active files days rest (S r) in
    if is_expired (now files r) user days then (k.1, k.2) else (user :: k.1, k.2).
Proof.
  cbn [keep_active]. destruct (keep_active files days rest (S r)) as [k r'].
  by destruct (is_expired _ _ _).
Qed.

Lemma classify_partition files days users :
  ∀ r, let c := classify files days users r in
       c.1.1 ++ c.1.2 ≡ₚ username <$> users
       ∧ sublist c.1.1 (username <$> users)
       ∧ sublist c.1.2 (username <$> users)
       ∧ c.2 = (r + length users)%nat.
Proof.
  induction users as [|user rest IH]; intros r.
  - simpl. repeat split; (done || lia).
  - rewrite classify_cons. cbv zeta.
    destruct (IH (S r)) as (Hp & Ha & Hx & Hr). rewrite fmap_cons.
    destruct (is_expired (now files r) user days); cbn [fst snd].
    + repeat split.
      * by rewrite <- Permutation_middle, Hp.
      * by apply sublist_cons.
      * by apply sublist_skip.
      * rewrite Hr. simpl. lia.
    + repeat split.
      * simpl. by rewrite Hp.
      * by apply sublist_skip.
      * by apply sublist_cons.
      * rewrite Hr. simpl. lia.
Qed.

Lemma keep_active_sublist files days users :
  ∀ r, sublist (keep_active files days users r).1 users
       ∧ (keep_active files days users r).2 = (r + length users)%nat
       ∧ Forall (fun u => ∃ i, (r ≤ i < r + length users)%nat
                              ∧ is_expired (now files i) u days = false)
           (keep_active files days users r).1.
Proof.
  induction users as [|user rest IH]; intros r.
  - simpl. repeat split; (done || lia).
  - rewrite keep_active_cons. cbv zeta. destruct (IH (S r)) as (Hs & Hr & Hf).
    assert (Hf' : Forall (fun u => ∃ i, (r ≤ i < r + length (user :: rest))%nat
                              ∧ is_expired (now files i) u days = false)
                    (keep_active files days rest (S r)).1).
    { eapply Forall_impl; [exact Hf|]. intros u (i & Hi & He). exists i.
      split; [simpl; lia | done]. }
    destruct (is_expired (now files r) user days) eqn:He; cbn [fst snd].
    + repeat split; [by apply sublist_cons | rewrite Hr; simpl; lia | done].
    + repeat split; [by apply sublist_skip | rewrite Hr; simpl; lia |].
      constructor; [|done]. exists r. split; [simpl; lia | done].
Qed.

(** An account that is expired stays expired as the clock moves on. *)
Lemma is_expired_monotone (now1 now2 : datetime) (u : PromotedUser) (days : Z) :
  now1 <= now2 → is_expired now1 u days = true → is_expired now2 u days = true.
Proof.
  unfold is_expired, timedelta_days. rewrite !Z.ltb_lt. intros Hle Hlt.
  eapply Z.lt_le_trans; [exact Hlt|].
  apply Z.div_le_mono; [unfold us_per_day, us_per_second; lia | lia].
Qed.

Lemma kept_are_active files days users :
  (∀ a b, (a ≤ b)%nat → now files a <= now files b) →
  ∀ r r1, (r ≤ r1)%nat →
    sublist (username <$> (keep_active files days users r1).1)
            (classify files days users r).1.1.
Proof.
  intros Hmono. induction users as [|user rest IH]; intros r r1 Hr.
  - simpl. constructor.
  - rewrite classify_cons, keep_active_cons. cbv zeta.
    specialize (IH (S r) (S r1) ltac:(lia)).
    destruct (is_expired (now files r) user days) eqn:E1;
      destruct (is_expired (now files r1) user days) eqn:E2; cbn [fst snd].
    + done.
    + rewrite (is_expired_monotone (now files r) (now files r1) user days) in E2;
        [done | by apply Hmono | done].
    + by apply sublist_cons.
    + rewrite fmap_cons. by apply sublist_skip.
Qed.

(** [check_and_update_promoted_users] sorts every loaded account into
    exactly one of the two lists it returns, keeps the file order in both,
    and writes back a sub-list of what it loaded: it never adds or alters an
    entry.  With a clock that does not run backwards, every account it
    writes back is one that it reported as active. *)
Theorem check_and_update_partitions (files : Files) (cfg : Config) (j : Journal) :
  let loaded := stored files (loads j) in
  let res := check_and_update_promoted_users files cfg j in
  res.2.1 ++ res.2.2 ≡ₚ username <$> loaded
  ∧ sublist res.2.1 (username <$> loaded)
  ∧ sublist res.2.2 (username <$> loaded)
  ∧ (∃ kept, saves res.1 = saves j ++ [kept] ∧ sublist kept loaded
             ∧ ((∀ a b, (a ≤ b)%nat → now files a <= now files b) →
                sublist (username <$> kept) res.2.1))
  ∧ loads res.1 = S (loads j).
Proof.
  intros loaded res. unfold res, check_and_update_promoted_users. fold loaded.
  pose proof (classify_partition files (days_period cfg) loaded (readings j))
    as (Hp & Ha & Hx & Hr).
  pose proof (fun Hm r1 => kept_are_active files (days_period cfg) loaded Hm
                             (readings j) r1) as Hk.
  destruct (classify files (days_period cfg) loaded (readings j)) as [[a x] r1].
  cbn [fst snd] in *.
  pose proof (keep_active_sublist files (days_period cfg) loaded r1) as (Hs & _ & _).
  specialize (fun Hm => Hk Hm r1).
  destruct (keep_active files (days_period cfg) loaded r1) as [kept r2].
  cbn [fst snd] in *. repeat split; try done.
  exists kept. repeat split; try done.
  intros Hmono. apply Hk; [done | lia].
Qed.

(** [add_promoted_users] leaves the loaded entries untouched at the front
    of what it saves; behind them come the new entries, one per requested
    username that was not tracked yet, all dated with the same reading of
    the clock.  Every requested username is tracked afterwards. *)
Theorem add_promoted_users_extends (files : Files) (usernames : list string)
    (j : Journal) :
  usernames ≠ [] →
  let existing := stored files (loads j) in
  ∃ added,
    saves (add_promoted_users files usernames j) = saves j ++ [existing ++ added]
    ∧ (∀ u, u ∈ usernames → u ∈ username <$> (existing ++ added))
    ∧ (∀ p, p ∈ added →
         username p ∈ usernames
         ∧ (username p ∉ username <$> existing)
         ∧ promotion_date p = now files (readings j))
    ∧ (NoDup usernames → NoDup (username <$> existing) →
       NoDup (username <$> (existing ++ added))).
Proof.
  intros Hne existing. unfold add_promoted_users.
  rewrite bool_decide_false by done. fold existing.
  set (known := (list_to_set (username <$> existing) : gset string)).
  set (fresh := filter (fun u => u ∉ known) usernames).
  exists ((fun u => mkPromotedUser u (now files (readings j))) <$> fresh).
  assert (Hknown : ∀ u, u ∈ known ↔ u ∈ username <$> existing).
  { intros u. unfold known. by rewrite elem_of_list_to_set. }
  assert (Hnames : username <$> ((fun u => mkPromotedUser u (now files (readings j)))
                                   <$> fresh) = fresh).
  { rewrite <- list_fmap_compose. apply list_fmap_id. }
  split; [done|]. split; [|split].
  - intros u Hu. rewrite fmap_app, Hnames, elem_of_app.
    destruct (decide (u ∈ known)) as [Hin|Hnin].
    + left. by apply Hknown.
    + right. unfold fresh. by apply list_elem_of_filter.
  - intros p Hp. apply list_elem_of_fmap in Hp as (u & -> & Hu).
    unfold fresh in Hu. apply list_elem_of_filter in Hu as [Hnin Hu].
    simpl. split; [done|]. split; [|done]. by rewrite <- Hknown.
  - intros Hnd Hnd'. rewrite fmap_app, Hnames. apply NoDup_app.
    split; [done|]. split.
    + intros u Hu Hf. unfold fresh in Hf. apply list_elem_of_filter in Hf as [Hnin _].
      apply Hnin. by apply Hknown.
    + unfold fresh. by apply NoDup_filter.
Qed.

Lemma add_promoted_users_extends_witness :
  let files := mkFiles (fun _ => [mkPromotedUser "amy" 0]) (fun _ => 7) in
  ∃ added,
    saves (add_promoted_users files ["amy"; "bob"] fresh_journal)
      = saves fresh_journal ++ [stored files 0 ++ added]
    ∧ (∀ u, u ∈ ["amy"; "bob"] → u ∈ username <$> (stored files 0 ++ added))
    ∧ (∀ p, p ∈ added →
         username p ∈ ["amy"; "bob"]
         ∧ (username p ∉ username <$> stored files 0)
         ∧ promotion_date p = 7)
    ∧ (NoDup ["amy"; "bob"] → NoDup (username <$> stored files 0) →
       NoDup (username <$> (stored files 0 ++ added))).
Proof.
  intros files. apply (add_promoted_users_extends files ["amy"; "bob"] fresh_journal).
  discriminate.
Defined.

(** Nothing is loaded or saved when there is nobody to add. *)
Lemma add_promoted_users_nobody (files : Files) (j : Journal) :
  add_promoted_users files [] j = j.
Proof. reflexivity. Qed.

(** [process_promotion] never shrinks the follower set and never grows the
    following set: it adds the active promoted accounts to the first and
    removes the expired ones from the second.  With promotion switched off
    it returns its arguments and touches neither the file nor the network;
    switched on, it loads and saves the file exactly once and sends no
    request. *)
Theorem process_promotion_result (fuel : nat) (env : Env) (rng : Random)
    (files : Files) (cfg : Config) (current_followers current_following ban_list : gset string)
    (j : Journal) (w : World) :
  let res := process_promotion fuel env rng files cfg current_followers
               current_following ban_list j w in
  let checked := check_and_update_promoted_users files cfg j in
  res.2 = Some (if promotion cfg
                then (current_followers ∪ list_to_set checked.2.1,
                      current_following ∖ list_to_set checked.2.2)
                else (current_followers, current_following))
  ∧ res.1.2 = (if promotion cfg then checked.1 else j)
  ∧ requests (trace res.1.1) = requests (trace w)
  ∧ (∀ uf ug, res.2 = Some (uf, ug) → current_followers ⊆ uf ∧ ug ⊆ current_following).
Proof.
  intros res checked.
  assert (Hmain : res.2 = Some (if promotion cfg
                then (current_followers ∪ list_to_set checked.2.1,
                      current_following ∖ list_to_set checked.2.2)
                else (current_followers, current_following))
          ∧ res.1.2 = (if promotion cfg then checked.1 else j)
          ∧ requests (trace res.1.1) = requests (trace w)).
  { unfold res, process_promotion. destruct (promotion cfg); cbn [negb]; [|done].
    fold checked. destruct checked as [j1 [active expired]]. cbn [fst snd].
    destruct (0 <? count_promotion_users cfg - llen active); [|done].
    pose proof (find_users_to_promote_finds_nothing fuel env rng cfg current_followers
                  ban_list (count_promotion_users cfg - llen active) 1 w) as [Hnone Hreq].
    destruct (find_users_to_promote _ _ _ _ _ _ _ _ w) as [w1 found].
    cbn [fst snd] in *. subst found. rewrite bool_decide_true by done. done. }
  destruct Hmain as (Hres & Hj & Hreq).
  split; [exact Hres|]. split; [exact Hj|]. split; [exact Hreq|].
  intros uf ug Hsome. rewrite Hres in Hsome.
  destruct (promotion cfg); simplify_eq; set_solver.
Qed.

End TrackingProperties.

(** ** One run of the manager *)

Section RunProperties.
Import Models ConfigModule Client Manager Promotion Tracking Run Observe.

Lemma list_pages_launches env resource username max_pages :
  ∀ fuel page acc w,
    launches (trace (list_pages fuel env resource username max_pages page acc w).1)
    = launches (trace w).
Proof.
  induction fuel as [|fuel IH]; intros page acc w; [done|].
  cbn [list_pages]. destruct (page_limit_reached max_pages page); [done|].
  pose proof (request_attempts_launches env (page_request resource username page)
                (range max_retries) 1 w) as Hreq.
  unfold _make_request.
  destruct (request_attempts env _ _ 1 w) as [w1 [data|e]]; cbn [fst] in Hreq; [|done].
  destruct (negb (truthy data)); [done|].
  destruct (logins_of data) as [logins|e]; [|done].
  destruct (len data <? PER_PAGE); [done|]. by rewrite IH.
Qed.

Lemma fetch_current_state_launches fuel env self_username state w :
  launches (trace (fetch_current_state fuel env self_username state w).1)
  = launches (trace w).
Proof.
  unfold fetch_current_state, get_followers, get_following.
  pose proof (list_pages_launches env "followers" (username_or None self_username)
                None fuel 1 [] w) as H1.
  destruct (list_pages fuel env "followers" _ None 1 [] w) as [w1 r1]. cbn [fst] in H1.
  pose proof (list_pages_launches env "following" (username_or None self_username)
                None fuel 1 [] w1) as H2.
  destruct (list_pages fuel env "following" _ None 1 [] w1) as [w2 r2]. cbn [fst] in *.
  congruence.
Qed.

Lemma fetch_current_state_keeps_ban_lists fuel env self_username state w st :
  (fetch_current_state fuel env self_username state w).2 = Some (Ok st) →
  ban_list_followers st = ban_list_followers state
  ∧ ban_list_following st = ban_list_following state
  ∧ promoted_users st = promoted_users state.
Proof.
  unfold fetch_current_state.
  destruct (get_followers _ _ _ _ _ w) as [w1 r1].
  destruct (get_following _ _ _ _ _ w1) as [w2 r2]. cbn [snd].
  destruct r1 as [[f|e]|]; [|done|done].
  destruct r2 as [[g|e]|]; [|done|done].
  intros [= <-]. done.
Qed.

Lemma scan_queue_launches fuel env rng cfg excluded count deeper queue :
  ∀ starts s w,
    launches (trace (scan_queue fuel env rng cfg excluded count deeper queue starts s w).1)
    = launches (trace w).
Proof.
  induction starts as [|i rest IH]; intros s w; [done|].
  cbn [scan_queue]. cbv zeta. case_bool_decide; [apply IH|].
  destruct (pages_for rng cfg _ (draws s)) as [pages_map draws'].
  rewrite pages_map_is_not_a_parameter.
  destruct (count <=? llen (promoted s)); [done|].
  rewrite IH. apply launches_sleep.
Qed.

Lemma search_levels_launches fuel env rng cfg excluded count max_depth :
  ∀ levels queue current_depth promoted visited draws w,
    launches (trace (search_levels levels fuel env rng cfg excluded count max_depth
                       queue current_depth promoted visited draws w).1)
    = launches (trace w).
Proof.
  induction levels as [|levels IH]; intros queue current_depth promoted visited draws w;
    cbn [search_levels];
    (destruct (negb (bool_decide (queue = [])) && (llen promoted <? count)
               && (current_depth <? max_depth)); [|done]); [done|].
  pose proof (scan_queue_launches fuel env rng cfg excluded count
                (current_depth + 1 <? max_depth) queue (range_step (length queue) 3)
                (mkSearch promoted visited [] draws) w) as Hs.
  destruct (scan_queue _ _ _ _ _ _ _ _ _ _ w) as [w1 [s1|]]; cbn [fst] in Hs; [|done].
  by rewrite IH.
Qed.

Lemma find_users_to_promote_launches fuel env rng cfg current_followers ban_list count
    max_depth w :
  launches (trace (find_users_to_promote fuel env rng cfg current_followers ban_list
                     count max_depth w).1)
  = launches (trace w).
Proof.
  unfold find_users_to_promote. cbv zeta. case_bool_decide; [done|].
  match goal with
  | |- context [search_levels ?l fuel env rng cfg ?ex count max_depth ?q 0 [] ∅ 0%nat w] =>
      pose proof (search_levels_launches fuel env rng cfg ex count max_depth
                    l q 0 [] ∅ 0%nat w) as Hs;
      destruct (search_levels l fuel env rng cfg ex count max_depth q 0 [] ∅ 0%nat w)
        as [w1 [found|]]
  end; done.
Qed.

Lemma process_promotion_launches fuel env rng files cfg fs fg ban j w :
  launches (trace (process_promotion fuel env rng files cfg fs fg ban j w).1.1)
  = launches (trace w).
Proof.
  unfold process_promotion. destruct (negb (promotion cfg)); [done|].
  destruct (check_and_update_promoted_users files cfg j) as [j1 [active expired]].
  destruct (0 <? count_promotion_users cfg - llen active); [|done].
  pose proof (find_users_to_promote_launches fuel env rng cfg fs ban
                (count_promotion_users cfg - llen active) 1 w) as Hf.
  destruct (find_users_to_promote _ _ _ _ _ _ _ _ w) as [w1 [found|]];
    cbn [fst] in Hf; [|done].
  by case_bool_decide.
Qed.

Lemma process_promotion_sets fuel env rng files cfg fs fg ban j w uf ug :
  (process_promotion fuel env rng files cfg fs fg ban j w).2 = Some (uf, ug) →
  fs ⊆ uf ∧ ug ⊆ fg.
Proof.
  unfold process_promotion. destruct (negb (promotion cfg)).
  { intros [= <- <-]. done. }
  destruct (check_and_update_promoted_users files cfg j) as [j1 [active expired]].
  destruct (0 <? count_promotion_users cfg - llen active).
  - destruct (find_users_to_promote _ _ _ _ _ _ _ _ w) as [w1 [found|]]; [|done].
    case_bool_decide; intros [= <- <-]; set_solver.
  - intros [= <- <-]. set_solver.
Qed.

Lemma elem_of_sorted_elements (s : gset string) (u : string) :
  u ∈ sorted (elements s) ↔ u ∈ s.
Proof. by rewrite (sorted_Permutation (elements s)), elem_of_elements. Qed.

(** The calls that [process_subscriptions] creates. *)
Lemma process_subscriptions_launches fuel env rng files cfg state j w :
  let res := process_subscriptions fuel env rng files cfg state j w in
  match res.2 with
  | None => launches (trace res.1.1) = launches (trace w)
  | Some st =>
      launches (trace res.1.1)
      = launches (trace w)
        ++ (pair Follow <$> sorted (elements (get_users_to_follow st)))
        ++ (pair Unfollow <$> sorted (elements (get_users_to_unfollow st)))
      ∧ ban_list_followers st = ban_list_followers state
      ∧ ban_list_following st = ban_list_following state
      ∧ promoted_users st = promoted_users state
      ∧ followers state ⊆ followers st
      ∧ following st ⊆ following state
  end.
Proof.
  unfold process_subscriptions.
  assert (Hp : ∃ w1 j1 sets,
            (if promotion cfg
             then process_promotion fuel env rng files cfg (followers state)
                    (following state) (ban_list_followers state) j w
             else (w, j, Some (followers state, following state))) = (w1, j1, sets)
            ∧ launches (trace w1) = launches (trace w)
            ∧ ∀ uf ug, sets = Some (uf, ug) →
                followers state ⊆ uf ∧ ug ⊆ following state).
  { destruct (promotion cfg).
    - pose proof (process_promotion_launches fuel env rng files cfg (followers state)
                    (following state) (ban_list_followers state) j w) as Hl.
      pose proof (process_promotion_sets fuel env rng files cfg (followers state)
                    (following state) (ban_list_followers state) j w) as Hs.
      destruct (process_promotion _ _ _ _ _ _ _ _ j w) as [[w1 j1] sets].
      exists w1, j1, sets. done.
    - exists w, j, (Some (followers state, following state)).
      split; [done|]. split; [done|]. intros uf ug [= <- <-]. done. }
  destruct Hp as (w1 & j1 & sets & -> & Hl & Hsets).
  destruct sets as [[uf ug]|]; [|done].
  destruct (Hsets uf ug eq_refl) as [Hf Hg].
  match goal with
  | |- context [_process_follows env ?us w1] =>
      pose proof (process_stream_launches Follow (batch_follow env) us w1) as Hfl;
      destruct (_process_follows env us w1) as [w2 rf] eqn:Ef
  end.
  match goal with
  | |- context [_process_unfollows env ?us w2] =>
      pose proof (process_stream_launches Unfollow (batch_unfollow env) us w2) as Hul;
      destruct (_process_unfollows env us w2) as [w3 ru] eqn:Eu
  end.
  unfold _process_follows in Ef. unfold _process_unfollows in Eu.
  rewrite Ef in Hfl. rewrite Eu in Hul. cbn [fst snd] in *.
  split; [|done].
  rewrite Hul, Hfl, Hl, <- app_assoc; [done | |].
  - intros b d w0. apply batch_launches. intros u w'. apply follow_user_launches.
  - intros b d w0. apply batch_launches. intros u w'. apply unfollow_user_launches.
Qed.

(** What one run targets, in terms of the two lists as fetched: the ban
    lists are subtracted from the fetched sets before the delta is taken, so
    a follower is followed when it is not banned from following and is
    either not followed yet or on the never-unfollow list (a mutual contact
    on that list is followed again), and a followed account is unfollowed
    when it is not on the never-unfollow list, not protected, and either
    does not follow back or is banned from following. *)
Theorem fetched_state_delta (fuel : nat) (env : Env) (self_username : string)
    (state : SubscriptionState) (w w1 w2 : World) (fetched_followers fetched_following : list string) :
  get_followers fuel env self_username None None w = (w1, Some (Ok fetched_followers)) →
  get_following fuel env self_username None None w1 = (w2, Some (Ok fetched_following)) →
  ∃ st, fetch_current_state fuel env self_username state w = (w2, Some (Ok st))
    ∧ (∀ u, (u ∈ get_users_to_follow st) ↔
            (u ∈ fetched_followers ∧ (u ∉ ban_list_followers state)
             ∧ ((u ∉ fetched_following) ∨ u ∈ ban_list_following state)))
    ∧ (∀ u, (u ∈ get_users_to_unfollow st) ↔
            (u ∈ fetched_following ∧ (u ∉ ban_list_following state)
             ∧ ((u ∉ fetched_followers) ∨ u ∈ ban_list_followers state)
             ∧ ¬ (∃ p, p ∈ promoted_users state ∧ username p = u))).
Proof.
  intros H1 H2. unfold fetch_current_state. rewrite H1, H2.
  eexists. split; [reflexivity|].
  unfold get_users_to_follow, get_users_to_unfollow. cbn [followers following
    ban_list_followers ban_list_following promoted_users]. split; intros u.
  - rewrite !elem_of_difference, !elem_of_list_to_set.
    destruct (decide (u ∈ ban_list_following state)); naive_solver.
  - rewrite !elem_of_difference, elem_of_active_promoted, !elem_of_list_to_set.
    destruct (decide (u ∈ ban_list_followers state)); naive_solver.
Qed.

Lemma fetched_state_delta_witness :
  let env := scripted_env [plain 200 ["amy"]; plain 200 ["amy"]] 0 in
  let state := mkState ∅ ∅ ∅ {["amy"]} [] in
  ∃ st, fetch_current_state 3 env "me" state initial_world
        = ((get_following 3 env "me" None None
              (get_followers 3 env "me" None None initial_world).1).1, Some (Ok st))
    ∧ (∀ u, (u ∈ get_users_to_follow st) ↔
            (u ∈ ["amy"] ∧ (u ∉ ban_list_followers state)
             ∧ ((u ∉ ["amy"]) ∨ u ∈ ban_list_following state)))
    ∧ (∀ u, (u ∈ get_users_to_unfollow st) ↔
            (u ∈ ["amy"] ∧ (u ∉ ban_list_following state)
             ∧ ((u ∉ ["amy"]) ∨ u ∈ ban_list_followers state)
             ∧ ¬ (∃ p, p ∈ promoted_users state ∧ username p = u))).
Proof.
  intros env state.
  apply (fetched_state_delta 3 env "me" state initial_world
           (get_followers 3 env "me" None None initial_world).1
           (get_following 3 env "me" None None
              (get_followers 3 env "me" None None initial_world).1).1
           ["amy"] ["amy"]); reflexivity.
Defined.

(** A mutual contact on the never-unfollow list is followed again. *)
Example never_unfollow_contact_is_followed_again :
  let env := scripted_env [plain 200 ["amy"]; plain 200 ["amy"]] 0 in
  match (fetch_current_state 3 env "me" (mkState ∅ ∅ ∅ {["amy"]} []) initial_world).2 with
  | Some (Ok st) => get_users_to_follow st = {["amy"]}
  | _ => False
  end.
Proof. vm_compute. reflexivity. Qed.

(** A run never follows an account on the follow ban list (never_follow or
    ignore_completely) and never unfollows one on the never-unfollow list,
    whatever the service answers and whatever the promotion step does; and
    it never both follows and unfollows the same account. *)
Theorem run_respects_ban_lists (fuel : nat) (env : Env) (rng : Random) (files : Files)
    (cfg : Config) (cm : ConfigManager) (state : SubscriptionState) (j : Journal)
    (w : World) (ban_follow ban_unfollow : gset string) :
  get_combined_ban_list_followers cm = Ok ban_follow →
  get_combined_ban_list_following cm = Ok ban_unfollow →
  let res := run fuel env rng files cfg (Some cm) state j w in
  ∃ new, launches (trace res.1.1) = launches (trace w) ++ new
    ∧ (∀ u, (Follow, u) ∈ new → u ∉ ban_follow)
    ∧ (∀ u, (Unfollow, u) ∈ new → u ∉ ban_unfollow)
    ∧ (∀ u, (Follow, u) ∈ new → (Unfollow, u) ∉ new).
Proof.
  intros Hbf Hbu. unfold run, load_ban_lists. rewrite Hbf, Hbu. cbn [mbind Outcome_bind].
  set (state1 := mkState (followers state) (following state) ban_follow ban_unfollow
                   (promoted_users state)).
  pose proof (fetch_current_state_launches fuel env (cfg_username cfg) state1 w) as Hfl.
  pose proof (fetch_current_state_keeps_ban_lists fuel env (cfg_username cfg) state1 w)
    as Hkeep.
  destruct (fetch_current_state fuel env (cfg_username cfg) state1 w) as [w1 r].
  cbn [fst snd] in *.
  assert (Hnone : ∀ w' : World, launches (trace w') = launches (trace w) →
            ∃ new : list (Verb * string),
              launches (trace w') = launches (trace w) ++ new
              ∧ (∀ u, (Follow, u) ∈ new → u ∉ ban_follow)
              ∧ (∀ u, (Unfollow, u) ∈ new → u ∉ ban_unfollow)
              ∧ (∀ u, (Follow, u) ∈ new → (Unfollow, u) ∉ new)).
  { intros w' Hw'. exists []. rewrite app_nil_r. split; [done|].
    repeat split; intros u Hu; by apply elem_of_nil in Hu. }
  destruct r as [[st|e]|]; [|by apply Hnone|by apply Hnone].
  destruct (Hkeep st eq_refl) as (Hb1 & Hb2 & _). cbn in Hb1, Hb2.
  pose proof (process_subscriptions_launches fuel env rng files cfg st j w1) as Hps.
  destruct (process_subscriptions fuel env rng files cfg st j w1) as [[w2 j2] r2].
  cbn [fst snd] in *. cbv zeta in Hps.
  destruct r2 as [st2|]; cbn [fst snd]; [|apply Hnone; congruence].
  destruct Hps as (Hl & Hf2 & Hu2 & _).
  eexists. split; [rewrite Hl, Hfl; reflexivity|].
  assert (Hin : ∀ (v v' : Verb) (u : string) (s : gset string),
            (v, u) ∈ (pair v' <$> sorted (elements s)) → v = v' ∧ u ∈ s).
  { intros v v' u s Hu. apply list_elem_of_fmap in Hu as (u' & [= -> ->] & Hu').
    split; [done|]. by apply elem_of_sorted_elements. }
  split; [|split].
  - intros u Hu. apply elem_of_app in Hu as [Hu|Hu]; apply Hin in Hu as [Hv Hu];
      [|done]. unfold get_users_to_follow in Hu. rewrite Hf2, Hb1 in Hu. set_solver.
  - intros u Hu. apply elem_of_app in Hu as [Hu|Hu]; apply Hin in Hu as [Hv Hu];
      [done|]. unfold get_users_to_unfollow in Hu. rewrite Hu2, Hb2 in Hu. set_solver.
  - intros u Hu Hu'.
    apply elem_of_app in Hu as [Hu|Hu]; apply Hin in Hu as [Hv Hu]; [|done].
    apply elem_of_app in Hu' as [Hu'|Hu']; apply Hin in Hu' as [Hv' Hu']; [done|].
    pose proof (follow_unfollow_disjoint st2) as Hd. set_solver.
Qed.

Lemma run_respects_ban_lists_witness :
  let env := scripted_env [plain 200 ["amy"; "bob"]; plain 200 ["cat"; "dan"]] 0 in
  let cm := load_ban_section init (Some ["amy"]) (Some ["cat"]) None in
  let files := mkFiles (fun _ => []) (fun _ => 0) in
  let res := run 3 env first_k files (default_config "me") (Some cm) empty_state
               fresh_journal initial_world in
  ∃ new, launches (trace res.1.1) = launches (trace initial_world) ++ new
    ∧ (∀ u, (Follow, u) ∈ new → u ∉ ({["amy"]} : gset string))
    ∧ (∀ u, (Unfollow, u) ∈ new → u ∉ ({["cat"]} : gset string))
    ∧ (∀ u, (Follow, u) ∈ new → (Unfollow, u) ∉ new).
Proof.
  intros env cm files.
  apply (run_respects_ban_lists 3 env first_k files (default_config "me") cm empty_state
           fresh_journal initial_world {["amy"]} {["cat"]}).
  - vm_compute. reflexivity.
  - vm_compute. reflexivity.
Defined.

(** With the lists of the witness, the run follows bob and unfollows dan. *)
Example run_follows_and_unfollows :
  launches (trace (run 3
     (scripted_env [plain 200 ["amy"; "bob"]; plain 200 ["cat"; "dan"]] 0)
     first_k (mkFiles (fun _ => []) (fun _ => 0)) (default_config "me")
     (Some (load_ban_section init (Some ["amy"]) (Some ["cat"]) None))
     empty_state fresh_journal initial_world).1.1)
  = [(Follow, "bob"); (Unfollow, "dan")].
Proof. vm_compute. reflexivity. Qed.

(** Without a configuration manager a run stops before the first request. *)
Lemma run_needs_config_manager fuel env rng files cfg state j w :
  run fuel env rng files cfg None state j w = (w, j, Some (Raise ValueError)).
Proof. reflexivity. Qed.






(** The expired entry is gone from the file after the statistics. *)
Example statistics_drop_expired_entries :
  saves (get_statistics 3 (scripted_env [plain 200 ["amy"]; plain 200 ["bob"]] 0)
           (mkFiles (fun _ => [mkPromotedUser "old" 0;
                               mkPromotedUser "new" (9 * us_per_day)])
              (fun _ => 10 * us_per_day))
           (default_config "me") empty_state fresh_journal initial_world).1.2
  = [[mkPromotedUser "new" (9 * us_per_day)]].
Proof. vm_compute. reflexivity. Qed.

End RunProperties.

(** ** Utilities ([utils.py]) *)

Section UtilsProperties.
Import Models Client Manager Utils Observe.

Lemma gather_fixed {A R : Type} (f : A → World → World * R) (g : A → R) :
  (∀ a w, (f a w).2 = g a) →
  ∀ l w, (gather (f <$> l) w).2 = g <$> l.
Proof.
  intros Hf l. induction l as [|a l IH]; intros w; [done|].
  rewrite !fmap_cons, gather_cons. cbn [snd]. by rewrite Hf, IH.
Qed.

Lemma process_rounds_results {A R : Type} (items : list A)
    (f : A → World → World * R) (g : A → R) (size : nat) (delay : Z) :
  (∀ a w, (f a w).2 = g a) →
  ∀ starts st,
    (foldl (process_round items f size delay) st starts).2
    = st.2 ++ (g <$> concat ((fun i => slice items i (i + size)) <$> starts)).
Proof.
  intros Hf. induction starts as [|i rest IH]; intros [w results].
  - simpl. by rewrite app_nil_r.
  - cbn [foldl]. rewrite IH, fmap_cons. cbn [concat]. rewrite fmap_app, app_assoc.
    f_equal. unfold process_round.
    pose proof (gather_fixed f g Hf (slice items i (i + size)) w) as Hg.
    destruct (gather (f <$> slice items i (i + size)) w) as [w1 rs].
    cbn [snd] in *. by subst rs.
Qed.

(** [batch_process] with a positive batch size returns one result per item,
    in the order of the items, however the items are cut into batches. *)
Theorem batch_process_keeps_order {A R : Type} (items : list A)
    (process_func : A → World → World * R) (outcome : A → R)
    (batch_size delay : Z) (w : World) :
  0 < batch_size →
  (∀ a w', (process_func a w').2 = outcome a) →
  (batch_process items process_func batch_size delay w).2 = Ok (outcome <$> items).
Proof.
  intros Hsize Hf. unfold batch_process.
  rewrite (proj2 (Z.eqb_neq _ _)) by lia. rewrite (proj2 (Z.ltb_ge _ _)) by lia.
  pose proof (process_rounds_results items process_func outcome (Z.to_nat batch_size)
                delay Hf (range_step (length items) (Z.to_nat batch_size)) (w, [])) as H.
  destruct (foldl _ (w, []) _) as [w1 results]. cbn [snd] in *. subst results.
  rewrite (batches_cover items (Z.to_nat batch_size)) by lia. done.
Qed.

Lemma batch_process_keeps_order_witness :
  (batch_process ["a"; "b"; "c"; "d"; "e"] (fun (a : string) w => (w, a +:+ "!")) 2 100
     initial_world).2
  = Ok ((fun a : string => a +:+ "!") <$> ["a"; "b"; "c"; "d"; "e"]).
Proof.
  apply (batch_process_keeps_order ["a"; "b"; "c"; "d"; "e"]
           (fun (a : string) w => (w, a +:+ "!")) (fun a => a +:+ "!") 2 100
           initial_world).
  - lia.
  - intros a w'. reflexivity.
Defined.

(** A batch size of zero raises; a negative one returns no result at all,
    and in both cases no item is processed. *)
Lemma batch_process_without_batches {A R : Type} (items : list A)
    (process_func : A → World → World * R) (batch_size delay : Z) (w : World) :
  batch_size <= 0 →
  batch_process items process_func batch_size delay w
  = (w, if batch_size =? 0 then Raise ValueError else Ok []).
Proof.
  intros Hsize. unfold batch_process. destruct (Z.eqb_spec batch_size 0); [done|].
  by rewrite (proj2 (Z.ltb_lt _ _)) by lia.
Qed.

(** While the progress stays between 0 and the total, the bar drawn by
    [ProgressBar.update] has exactly [width] cells, the filled ones first,
    and it is full when the total is reached. *)
Theorem progress_bar_fits (self : ProgressBar) (progress : Z) :
  0 <= width self →
  0 <= progress <= total self →
  let bar := (update self progress).2 in
  let filled := width self * progress / Z.max (total self) 1 in
  0 <= filled <= width self
  ∧ bar = replicate (Z.to_nat filled) Full
          ++ replicate (Z.to_nat (width self - filled)) Blank
  ∧ length bar = Z.to_nat (width self)
  ∧ (progress = total self → 0 < total self → filled = width self).
Proof.
  intros Hw Hp bar filled.
  assert (Hfilled : 0 <= filled <= width self).
  { unfold filled. split.
    - apply Z.div_pos; [nia | lia].
    - apply Z.div_le_upper_bound; [lia | nia]. }
  split; [exact Hfilled|]. split; [reflexivity|]. split.
  - unfold bar, update, repeat_cell. cbn [snd]. fold filled.
    rewrite length_app, !length_replicate. lia.
  - intros -> Htot. unfold filled. rewrite Z.max_l by lia.
    apply Z.div_mul. lia.
Qed.

Lemma progress_bar_fits_witness :
  let self := mkProgressBar 8 50 0 in
  let bar := (update self 3).2 in
  let filled := 50 * 3 / Z.max 8 1 in
  0 <= filled <= 50
  ∧ bar = replicate (Z.to_nat filled) Full ++ replicate (Z.to_nat (50 - filled)) Blank
  ∧ length bar = Z.to_nat 50
  ∧ (3 = 8 → 0 < 8 → filled = 50).
Proof.
  apply (progress_bar_fits (mkProgressBar 8 50 0) 3); simpl; lia.
Defined.

(** Past the total the bar outgrows its width. *)
Example progress_bar_overflows :
  length (update (mkProgressBar 2 10 0) 3).2 = 15%nat.
Proof. reflexivity. Qed.

End UtilsProperties.

(** ** Loading and saving the configuration ([config.py]) *)

Section SettingsProperties.
Import Models ConfigModule Manager Settings.

Lemma config_of_document (data : Document) (c : AppConfig) :
  config_data data ≫= from_dict = Done c →
  ∃ gh pr stn u t e d n,
    github data = Some gh ∧ gh_username gh = Some u ∧ gh_token gh = Some t
    ∧ promotion_section data = Some pr ∧ pr_enabled pr = Some e
    ∧ pr_days_period pr = Some d ∧ pr_count_users pr = Some n
    ∧ settings data = Some stn
    ∧ c = mkAppConfig (mkConfig u e d n 5 2 5) t (default true (st_retry_on_error stn)).
Proof.
  unfold config_data.
  destruct (github data) as [gh|]; cbn; [|done].
  destruct (gh_username gh) as [u|] eqn:Hu; cbn; [|done].
  destruct (gh_token gh) as [t|] eqn:Ht; cbn; [|done].
  destruct (promotion_section data) as [pr|]; cbn; [|done].
  destruct (pr_enabled pr) as [e|] eqn:He; cbn; [|done].
  destruct (pr_days_period pr) as [d|] eqn:Hd; cbn; [|done].
  destruct (pr_count_users pr) as [n|] eqn:Hn; cbn; [|done].
  destruct (settings data) as [stn|]; cbn; [|done].
  cbn. intros [= <-]. exists gh, pr, stn, u, t, e, d, n. done.
Qed.

Lemma validate_done (self : Manager) :
  _validate_config self = Done () →
  ∃ c, config self = Some c
       ∧ cfg_username (core c) ≠ "" ∧ token c ≠ ""
       ∧ 1 <= days_period (core c) ∧ 0 <= count_promotion_users (core c).
Proof.
  unfold _validate_config. destruct (config self) as [c|]; [|done].
  case_bool_decide as Hu; [done|]. case_bool_decide as Ht; [done|].
  destruct (days_period (core c) <? 1) eqn:Hd; [done|].
  destruct (count_promotion_users (core c) <? 0) eqn:Hn; [done|].
  intros _. exists c. apply Z.ltb_ge in Hd, Hn. done.
Qed.

(** A configuration that [load] returns has passed the validation: the
    username and the token are not empty, the retention period is at least
    one day and the target count is not negative.  Its discovery tuning is
    always the default (5 seeds, 2 pages per seed, pages up to 5): the file
    cannot set it.  The loaded document had its [github], [promotion] and
    [settings] sections, and the manager holds the returned configuration. *)
Theorem loaded_config_is_valid (file : FileState) (self : Manager) (c : AppConfig) :
  (load file self).2 = Done c →
  cfg_username (core c) ≠ "" ∧ token c ≠ ""
  ∧ 1 <= days_period (core c) ∧ 0 <= count_promotion_users (core c)
  ∧ seeds_count (core c) = 5 ∧ pages_per_seed (core c) = 2
  ∧ max_random_page (core c) = 5
  ∧ config (load file self).1 = Some c
  ∧ ∃ data, file = Parsed data ∧ is_Some (github data)
            ∧ is_Some (promotion_section data) ∧ is_Some (settings data)
            ∧ ban_section data ≠ Some None.
Proof.
  unfold load. destruct file as [| |data]; [done|done|].
  destruct (config_data data ≫= from_dict) as [c0|e] eqn:Hc; [|done].
  destruct (config_of_document data c0 Hc)
    as (gh & pr & stn & u & t & e & d & n & Hgh & _ & _ & Hpr & _ & _ & _ & Hst & ->).
  assert (Hgoal : ∀ section : option (option BanSection), section ≠ Some None →
            ban_section data = section →
            ∀ self1,
              config self1 = Some (mkAppConfig (mkConfig u e d n 5 2 5) t
                                     (default true (st_retry_on_error stn))) →
              (match _validate_config self1 with
               | Failed e0 => (self1, Failed e0)
               | Done _ => (self1, Done (mkAppConfig (mkConfig u e d n 5 2 5) t
                                           (default true (st_retry_on_error stn))))
               end).2 = Done c →
              cfg_username (core c) ≠ "" ∧ token c ≠ ""
              ∧ 1 <= days_period (core c) ∧ 0 <= count_promotion_users (core c)
              ∧ seeds_count (core c) = 5 ∧ pages_per_seed (core c) = 2
              ∧ max_random_page (core c) = 5
              ∧ config (match _validate_config self1 with
                        | Failed e0 => (self1, Failed e0)
                        | Done _ => (self1, Done (mkAppConfig (mkConfig u e d n 5 2 5) t
                                           (default true (st_retry_on_error stn))))
                        end).1 = Some c
              ∧ ∃ data0, Parsed data = Parsed data0 ∧ is_Some (github data0)
                  ∧ is_Some (promotion_section data0) ∧ is_Some (settings data0)
                  ∧ ban_section data0 ≠ Some None).
  { intros section Hsec Hban self1 Hcfg.
    destruct (_validate_config self1) as [[]|e0] eqn:Hv; [|done].
    cbn [fst snd]. intros [= <-].
    destruct (validate_done self1 Hv) as (c' & Hc' & Hu & Ht & Hd & Hn).
    rewrite Hcfg in Hc'. injection Hc' as <-. cbn in *.
    repeat split; try done.
    exists data. rewrite Hgh, Hpr, Hst, Hban. repeat split; eauto. }
  destruct (ban_section data) as [[b|]|] eqn:Hban; [|done|].
  - apply (Hgoal (Some (Some b))); done.
  - apply (Hgoal None); done.
Qed.

Lemma loaded_config_is_valid_witness :
  let data := mkDocument (Some (mkGithub (Some "me") (Some "secret")))
                (Some (mkPromotionSection (Some true) (Some 3) (Some 500)))
                (Some (mkSettingsSection None None None None)) None None in
  let c := mkAppConfig (mkConfig "me" true 3 500 5 2 5) "secret" true in
  cfg_username (core c) ≠ "" ∧ token c ≠ ""
  ∧ 1 <= days_period (core c) ∧ 0 <= count_promotion_users (core c)
  ∧ seeds_count (core c) = 5 ∧ pages_per_seed (core c) = 2
  ∧ max_random_page (core c) = 5
  ∧ config (load (Parsed data) new_manager).1 = Some c
  ∧ ∃ data0, Parsed data = Parsed data0 ∧ is_Some (github data0)
            ∧ is_Some (promotion_section data0) ∧ is_Some (settings data0)
            ∧ ban_section data0 ≠ Some None.
Proof.
  intros data c. apply (loaded_config_is_valid (Parsed data) new_manager c).
  reflexivity.
Defined.

(** The [settings] section has to be there although its only key is
    optional, and a [ban_lists] key without a value stops the load, while
    a missing [ban_lists] key gives three empty lists. *)
Example optional_parts_of_the_document :
  let gh := Some (mkGithub (Some "me") (Some "secret")) in
  let pr := Some (mkPromotionSection (Some true) (Some 3) (Some 500)) in
  let st := Some (mkSettingsSection None None None None) in
  (load (Parsed (mkDocument gh pr None None None)) new_manager).2
    = Failed (ConfigKeyError "settings")
  ∧ (load (Parsed (mkDocument gh pr st (Some None) None)) new_manager).2
    = Failed ConfigAttributeError
  ∧ lists (load (Parsed (mkDocument gh pr st None None)) new_manager).1
    = load_ban_section init None None None.
Proof. repeat split. Qed.

(** A load that fails the validation has already replaced the
    configuration of the manager: [get] then hands out the very
    configuration that was rejected. *)
Theorem rejected_config_is_installed (file : FileState) (self : Manager)
    (message : string) :
  (load file self).2 = Failed (ConfigValueError message) →
  ∃ c, get (load file self).1 = Done c
       ∧ (cfg_username (core c) = "" ∨ token c = ""
          ∨ days_period (core c) < 1 ∨ count_promotion_users (core c) < 0).
Proof.
  unfold load. destruct file as [| |data]; [done|done|].
  destruct (config_data data ≫= from_dict) as [c0|e] eqn:Hc.
  2:{ cbn [snd]. intros [= ->]. unfold config_data in Hc.
      destruct (github data) as [gh|]; cbn in Hc; [|done].
      destruct (gh_username gh); cbn in Hc; [|done].
      destruct (gh_token gh); cbn in Hc; [|done].
      destruct (promotion_section data) as [pr|]; cbn in Hc; [|done].
      destruct (pr_enabled pr); cbn in Hc; [|done].
      destruct (pr_days_period pr); cbn in Hc; [|done].
      destruct (pr_count_users pr); cbn in Hc; [|done].
      destruct (settings data); cbn in Hc; done. }
  assert (Hgoal : ∀ self1, config self1 = Some c0 →
            (match _validate_config self1 with
             | Failed e0 => (self1, Failed e0)
             | Done _ => (self1, Done c0)
             end).2 = Failed (ConfigValueError message) →
            ∃ c, get (match _validate_config self1 with
                      | Failed e0 => (self1, Failed e0)
                      | Done _ => (self1, Done c0)
                      end).1 = Done c
                 ∧ (cfg_username (core c) = "" ∨ token c = ""
                    ∨ days_period (core c) < 1 ∨ count_promotion_users (core c) < 0)).
  { intros self1 Hcfg. unfold _validate_config, get. rewrite Hcfg.
    case_bool_decide as Hu; [intros _; exists c0; cbn; rewrite Hcfg; eauto|].
    case_bool_decide as Ht; [intros _; exists c0; cbn; rewrite Hcfg; eauto|].
    destruct (days_period (core c0) <? 1) eqn:Hd.
    { intros _. exists c0. cbn. rewrite Hcfg. apply Z.ltb_lt in Hd. eauto. }
    destruct (count_promotion_users (core c0) <? 0) eqn:Hn; [|done].
    intros _. exists c0. cbn. rewrite Hcfg. apply Z.ltb_lt in Hn. eauto 6. }
  destruct (ban_section data) as [[b|]|]; [|done|]; by apply Hgoal.
Qed.

Lemma rejected_config_is_installed_witness :
  let data := mkDocument (Some (mkGithub (Some "me") (Some "secret")))
                (Some (mkPromotionSection (Some true) (Some 0) (Some 500)))
                (Some (mkSettingsSection None None None None)) None None in
  ∃ c, get (load (Parsed data) new_manager).1 = Done c
       ∧ (cfg_username (core c) = "" ∨ token c = ""
          ∨ days_period (core c) < 1 ∨ count_promotion_users (core c) < 0).
Proof.
  intros data.
  apply (rejected_config_is_installed (Parsed data) new_manager
           "DAYS_PERIOD must be at least 1").
  reflexivity.
Defined.

Lemma sorted_list_set (self : Manager) (key : string) :
  set_or_empty (Some (sorted_list self key)) = default ∅ (ban_lists (lists self) !! key).
Proof.
  unfold set_or_empty, sorted_list. apply set_eq. intros u.
  rewrite elem_of_list_to_set. apply elem_of_sorted_elements.
Qed.

(** Saving a valid configuration and loading the saved document gives back
    the username, the token, the promotion switch, the retention period,
    the target count, the retry switch and the three ban lists; the
    discovery tuning is not written and comes back as the default. *)
Theorem save_then_load (self : Manager) (c : AppConfig) :
  config self = Some c →
  cfg_username (core c) ≠ "" → token c ≠ "" →
  1 <= days_period (core c) → 0 <= count_promotion_users (core c) →
  ∃ doc, save None self = (self, Done doc)
    ∧ (load (Parsed doc) self).2
      = Done (mkAppConfig
                (mkConfig (cfg_username (core c)) (promotion (core c))
                   (days_period (core c)) (count_promotion_users (core c)) 5 2 5)
                (token c) (retry_on c))
    ∧ ∀ key, key ∈ ["never_follow"; "never_unfollow"; "ignore_completely"] →
        default ∅ (ban_lists (lists (load (Parsed doc) self).1) !! key)
        = default ∅ (ban_lists (lists self) !! key).
Proof.
  intros Hcfg Hu Ht Hd Hn. unfold save. rewrite Hcfg.
  eexists. split; [reflexivity|].
  unfold load. cbn [config_data github gh_username gh_token promotion_section pr_enabled
    pr_days_period pr_count_users settings st_retry_on_error require mbind Result_bind
    from_dict USERNAME TOKEN PROMOTION DAYS_PERIOD COUNT_PROMOTION_USERS RETRY_ON
    SEEDS_COUNT PAGES_PER_SEED MAX_RANDOM_PAGE default ban_section mjoin option_join
    bl_never_follow bl_never_unfollow bl_ignore_completely lists].
  unfold _validate_config. cbn [Settings.config core cfg_username token days_period
    count_promotion_users].
  rewrite !bool_decide_false by done. unfold id.
  rewrite (proj2 (Z.ltb_ge _ _)) by lia. rewrite (proj2 (Z.ltb_ge _ _)) by lia.
  cbn [fst snd bl_never_follow bl_never_unfollow bl_ignore_completely].
  split; [reflexivity|].
  intros key Hkey. unfold load_ban_section. cbn [lists ban_lists].
  rewrite !sorted_list_set. cbn [lists].
  rewrite !elem_of_cons in Hkey.
  destruct Hkey as [-> | [-> | [-> | Hnil]]]; [| | |by apply elem_of_nil in Hnil].
  - rewrite (lookup_insert_ne _ "ignore_completely" "never_follow") by done.
    rewrite (lookup_insert_ne _ "never_unfollow" "never_follow") by done.
    by rewrite lookup_insert_eq.
  - rewrite (lookup_insert_ne _ "ignore_completely" "never_unfollow") by done.
    by rewrite lookup_insert_eq.
  - by rewrite lookup_insert_eq.
Qed.

Lemma save_then_load_witness :
  let c := mkAppConfig (mkConfig "me" false 7 20 9 9 9) "secret" false in
  let self := mkManager (Some c) (load_ban_section init (Some ["b"; "a"]) None (Some ["z"])) in
  ∃ doc, save None self = (self, Done doc)
    ∧ (load (Parsed doc) self).2
      = Done (mkAppConfig (mkConfig "me" false 7 20 5 2 5) "secret" false)
    ∧ ∀ key, key ∈ ["never_follow"; "never_unfollow"; "ignore_completely"] →
        default ∅ (ban_lists (lists (load (Parsed doc) self).1) !! key)
        = default ∅ (ban_lists (lists self) !! key).
Proof.
  intros c self. apply (save_then_load self c); [reflexivity | done | done | |];
    simpl; lia.
Defined.

End SettingsProperties.

(** ** The collection loop of the discovery *)

Section Collection.
Import Models Client Manager Promotion Observe.

Lemma scan_followers_fresh (excluded : gset string) (count : Z) (deeper : bool) :
  ∀ (fetched promoted next_level : list string),
    NoDup promoted →
    (∀ u, u ∈ promoted → u ∉ excluded) →
    let res := scan_followers excluded count deeper fetched promoted next_level in
    NoDup res.1
    ∧ (∀ u, u ∈ res.1 → u ∉ excluded)
    ∧ (∀ u, u ∈ res.1 → u ∈ promoted ∨ u ∈ fetched)
    ∧ promoted `prefix_of` res.1
    ∧ llen res.1 <= Z.max count (llen promoted + 1)
    ∧ (∀ u, u ∈ res.2 → u ∈ next_level ∨ u ∈ fetched).
Proof.
  induction fetched as [|f rest IH]; intros promoted next_level Hnd Hex.
  - cbn. repeat split; try done; try (intros; by left). unfold llen. lia.
  - cbn [scan_followers]. cbv zeta.
    destruct (bool_decide (f ∉ excluded) && bool_decide (f ∉ promoted)) eqn:Hfresh.
    + destruct (andb_prop _ _ Hfresh) as [Hfe Hfp].
      apply bool_decide_eq_true in Hfe, Hfp.
      assert (Hnd' : NoDup (promoted ++ [f])).
      { apply NoDup_app. split; [done|]. split; [|apply NoDup_singleton].
        intros u Hu Hf. apply list_elem_of_singleton in Hf. by subst. }
      assert (Hex' : ∀ u, u ∈ promoted ++ [f] → u ∉ excluded).
      { intros u Hu. apply elem_of_app in Hu as [Hu|Hu]; [by apply Hex|].
        apply list_elem_of_singleton in Hu. by subst. }
      assert (Hlen : llen (promoted ++ [f]) = llen promoted + 1).
      { unfold llen. rewrite length_app. simpl. lia. }
      cbn [andb]. destruct (count <=? llen (promoted ++ [f])) eqn:Hstop.
      * cbn [fst snd]. split; [done|]. split; [done|]. split.
        { intros u Hu. apply elem_of_app in Hu as [Hu|Hu]; [by left|].
          right. apply list_elem_of_singleton in Hu. subst. by left. }
        split; [by apply prefix_app_r|]. split; [lia|]. intros u Hu. by left.
      * apply Z.leb_gt in Hstop.
        destruct (IH (promoted ++ [f]) (if deeper then next_level ++ [f] else next_level)
                    Hnd' Hex') as (H1 & H2 & H3 & H4 & H5 & H6).
        split; [done|]. split; [done|]. split.
        { intros u Hu. destruct (H3 u Hu) as [Hin|Hin]; [|right; by right].
          apply elem_of_app in Hin as [Hin|Hin]; [by left|].
          right. apply list_elem_of_singleton in Hin. subst. by left. }
        split; [etrans; [|exact H4]; by apply prefix_app_r|]. split; [lia|].
        intros u Hu. destruct (H6 u Hu) as [Hin|Hin]; [|right; by right].
        destruct deeper; [|by left].
        apply elem_of_app in Hin as [Hin|Hin]; [by left|].
        right. apply list_elem_of_singleton in Hin. subst. by left.
    + cbn [andb].
      destruct (IH promoted (if deeper then next_level ++ [f] else next_level) Hnd Hex)
        as (H1 & H2 & H3 & H4 & H5 & H6).
      split; [done|]. split; [done|]. split.
      { intros u Hu. destruct (H3 u Hu) as [Hin|Hin]; [by left | right; by right]. }
      split; [done|]. split; [done|].
      intros u Hu. destruct (H6 u Hu) as [Hin|Hin]; [|right; by right].
      destruct deeper; [|by left].
      apply elem_of_app in Hin as [Hin|Hin]; [by left|].
      right. apply list_elem_of_singleton in Hin. subst. by left.
Qed.

(** The loop that collects candidates from a fetched dict keeps what was
    collected before at the front, never takes an excluded account, never
    takes an account twice, takes accounts from the fetched lists only, and
    stops once [count] accounts are collected. *)
Theorem collected_candidates_are_fresh (excluded : gset string) (count : Z)
    (deeper : bool) (items : list (string * list string))
    (promoted next_level : list string) :
  NoDup promoted →
  (∀ u, u ∈ promoted → u ∉ excluded) →
  let res := scan_dict excluded count deeper items promoted next_level in
  NoDup res.1
  ∧ (∀ u, u ∈ res.1 → u ∉ excluded)
  ∧ (∀ u, u ∈ res.1 → u ∈ promoted ∨ ∃ fs, fs ∈ items.*2 ∧ u ∈ fs)
  ∧ promoted `prefix_of` res.1
  ∧ llen res.1 <= Z.max count (llen promoted + 1).
Proof.
  revert promoted next_level.
  induction items as [|[name fs] rest IH]; intros promoted next_level Hnd Hex.
  - cbn. repeat split; try done; try (intros; by left). unfold llen. lia.
  - cbn [scan_dict].
    pose proof (scan_followers_fresh excluded count deeper fs promoted next_level Hnd Hex)
      as (H1 & H2 & H3 & H4 & H5 & _).
    destruct (scan_followers excluded count deeper fs promoted next_level) as [p1 n1].
    cbn [fst snd] in *.
    assert (Hsrc : ∀ u, u ∈ p1 → u ∈ promoted ∨ ∃ fs0, fs0 ∈ ((name, fs) :: rest).*2 ∧ u ∈ fs0).
    { intros u Hu. destruct (H3 u Hu) as [Hin|Hin]; [by left|].
      right. exists fs. split; [rewrite fmap_cons; by left | done]. }
    destruct (count <=? llen p1) eqn:Hstop; cbn [fst snd]; [done|].
    apply Z.leb_gt in Hstop.
    destruct (IH p1 n1 H1 H2) as (G1 & G2 & G3 & G4 & G5).
    split; [done|]. split; [done|]. split.
    { intros u Hu. destruct (G3 u Hu) as [Hin|(fs0 & Hfs0 & Hin)]; [by apply Hsrc|].
      right. exists fs0. split; [rewrite fmap_cons; by right | done]. }
    split; [by etrans|].
    assert (llen promoted <= llen p1); [|lia].
    unfold llen. apply prefix_length in H4. lia.
Qed.

Lemma collected_candidates_are_fresh_witness :
  let excluded : gset string := {["alice"; "me"]} in
  let items := [("alice", ["bob"; "me"; "carol"; "dave"]); ("eve", ["bob"; "frank"])] in
  let res := scan_dict excluded 3 false items ["zed"] [] in
  NoDup res.1
  ∧ (∀ u, u ∈ res.1 → u ∉ excluded)
  ∧ (∀ u, u ∈ res.1 → u ∈ ["zed"] ∨ ∃ fs, fs ∈ items.*2 ∧ u ∈ fs)
  ∧ ["zed"] `prefix_of` res.1
  ∧ llen res.1 <= Z.max 3 (llen ["zed"] + 1).
Proof.
  intros excluded items.
  apply (collected_candidates_are_fresh excluded 3 false items ["zed"] []).
  - apply NoDup_singleton.
  - intros u Hu. apply list_elem_of_singleton in Hu. subst. unfold excluded. set_solver.
Defined.

End Collection.

(** ** The requests of a run *)

Section RunRequests.
Import Models ConfigModule Client Manager Promotion Tracking Run Observe Audit.

Lemma sends_only_same P w w' :
  requests (trace w') = requests (trace w) → sends_only P w w'.
Proof. intros H. exists []. by rewrite app_nil_r. Qed.

Lemma sends_only_trans P w w1 w2 :
  sends_only P w w1 → sends_only P w1 w2 → sends_only P w w2.
Proof.
  intros (n1 & H1 & F1) (n2 & H2 & F2). exists (n1 ++ n2).
  split; [by rewrite H2, H1, app_assoc | by apply Forall_app].
Qed.

Lemma sends_only_mono (P Q : Request → Prop) w w' :
  (∀ r, P r → Q r) → sends_only P w w' → sends_only Q w w'.
Proof.
  intros HPQ (n & H & F). exists n. split; [done|]. by eapply Forall_impl.
Qed.

Lemma sends_only_send P w req : P req → sends_only P w (send w req).
Proof.
  intros HP. exists [req]. split; [|by constructor].
  unfold send, requests; simpl. by rewrite omap_app.
Qed.

Lemma requests_set_rate_limit rl w :
  requests (trace (set_rate_limit rl w)) = requests (trace w).
Proof. done. Qed.

Lemma requests_launch v u w : requests (trace (launch v u w)) = requests (trace w).
Proof. unfold launch, requests; simpl. rewrite omap_app. simpl. apply app_nil_r. Qed.

Lemma request_attempts_sends env req attempts :
  ∀ retry_delay w,
    sends_only (eq req) w (request_attempts env req attempts retry_delay w).1.
Proof.
  induction attempts as [|attempt rest IH]; intros retry_delay w.
  - by apply sends_only_same.
  - cbn [request_attempts].
    assert (Hsent : ∀ rl, sends_only (eq req) w (set_rate_limit rl (send w req))).
    { intros rl. eapply sends_only_trans; [by apply sends_only_send|].
      by apply sends_only_same. }
    assert (Hnext : ∀ rl ms d,
              sends_only (eq req) w
                (request_attempts env req rest d
                   (sleep ms (set_rate_limit rl (send w req)))).1).
    { intros rl ms d. eapply sends_only_trans; [apply (Hsent rl)|].
      eapply sends_only_trans; [|apply IH].
      apply sends_only_same, requests_sleep. }
    destruct (reply env (issued w) req) as [r|].
    + cbn zeta. destruct (if status r =? 429 then _ else None) as [rl|].
      * apply Hnext.
      * destruct (400 <=? status r); [|apply Hsent].
        destruct (is_gateway_error (status r) && (attempt <? max_retries - 1));
          [apply Hnext | apply Hsent].
    + destruct (attempt <? max_retries - 1).
      * apply (Hnext (rate_limit w)).
      * by apply sends_only_send.
Qed.

Lemma list_pages_sends env resource username max_pages :
  ∀ fuel page acc w,
    sends_only (fun r => ∃ p, r = page_request resource username p) w
      (list_pages fuel env resource username max_pages page acc w).1.
Proof.
  induction fuel as [|fuel IH]; intros page acc w; [by apply sends_only_same|].
  cbn [list_pages]. destruct (page_limit_reached max_pages page);
    [by apply sends_only_same|].
  pose proof (request_attempts_sends env (page_request resource username page)
                (range max_retries) 1 w) as Hreq.
  eapply (sends_only_mono _ (fun r => ∃ p, r = page_request resource username p))
    in Hreq; [|intros r <-; eauto].
  unfold _make_request.
  destruct (request_attempts env _ _ 1 w) as [w1 [data|e]]; cbn [fst] in Hreq; [|done].
  destruct (negb (truthy data)); [done|].
  destruct (logins_of data) as [logins|e]; [|done].
  destruct (len data <? PER_PAGE); [done|].
  eapply sends_only_trans; [exact Hreq | apply IH].
Qed.

Lemma gather_sends (P : Request → Prop) (tasks : list (World → World * Outcome bool)) :
  Forall (fun t => ∀ w, sends_only P w (t w).1) tasks →
  ∀ w, sends_only P w (gather tasks w).1.
Proof.
  induction 1 as [|t ts Ht _ IH]; intros w; [by apply sends_only_same|].
  rewrite gather_cons. cbn [fst]. eapply sends_only_trans; [apply Ht | apply IH].
Qed.

Lemma launch_all_requests v delay usernames :
  ∀ w, requests (trace (launch_all v delay usernames w)) = requests (trace w).
Proof.
  unfold launch_all. induction usernames as [|u us IH]; intros w; [done|].
  simpl. by rewrite IH, requests_sleep, requests_launch.
Qed.

Lemma batch_sends v (op : string → World → World * Outcome bool)
    (P : string → Request → Prop) usernames delay w :
  (∀ u w', sends_only (P u) w' (op u w').1) →
  sends_only (fun r => ∃ u, u ∈ usernames ∧ P u r) w (batch v op usernames delay w).1.
Proof.
  intros Hop. unfold batch.
  pose proof (gather_sends (fun r => ∃ u, u ∈ usernames ∧ P u r) (op <$> usernames)) as Hg.
  destruct (gather (op <$> usernames) (launch_all v delay usernames w)) as [w' rs] eqn:Heq.
  cbn [fst].
  replace w' with (gather (op <$> usernames) (launch_all v delay usernames w)).1
    by (by rewrite Heq).
  eapply sends_only_trans; [apply sends_only_same, launch_all_requests|].
  apply Hg. apply Forall_fmap, Forall_forall. intros u Hu w0.
  eapply sends_only_mono; [|apply Hop]. intros r Hr. eauto.
Qed.

Lemma elem_of_slice {A : Type} (l : list A) (i k : nat) (x : A) :
  x ∈ slice l i k → x ∈ l.
Proof.
  unfold slice. intros Hx.
  apply (elem_of_sublist _ _ _ Hx). etrans; [apply sublist_take | apply sublist_drop].
Qed.

Lemma process_stream_sends
    (batch_op : list string → Z → World → World * gmap string bool)
    (P : string → Request → Prop) (users : list string) (w : World) :
  (∀ b d w', sends_only (fun r => ∃ u, u ∈ b ∧ P u r) w' (batch_op b d w').1) →
  sends_only (fun r => ∃ u, u ∈ users ∧ P u r) w (process_stream batch_op users w).1.
Proof.
  intros Hop. unfold process_stream. case_bool_decide; [by apply sends_only_same|].
  cbv zeta.
  assert (H' : ∀ starts st,
            sends_only (fun r => ∃ u, u ∈ users ∧ P u r) st.1
              (foldl (stream_round batch_op (sorted users) 5 1500) st starts).1).
  { induction starts as [|i rest IH]; intros [w0 results]; [by apply sends_only_same|].
    cbn [foldl]. eapply sends_only_trans; [|apply IH].
    unfold stream_round. specialize (Hop (slice (sorted users) i (i + 5)) 500 w0).
    destruct (batch_op (slice (sorted users) i (i + 5)) 500 w0) as [w1 br].
    cbn [fst] in *.
    eapply sends_only_trans.
    - eapply sends_only_mono; [|exact Hop]. intros r (u & Hu & HP). exists u.
      split; [|done]. apply elem_of_slice in Hu.
      by rewrite (sorted_Permutation users) in Hu.
    - case_bool_decide; [apply sends_only_same, requests_sleep | by apply sends_only_same]. }
  apply (H' _ (w, ∅)).
Qed.

Lemma follow_user_sends env u w :
  sends_only (eq (mkRequest PUT (mutation_endpoint u) None)) w (follow_user env u w).1.
Proof.
  unfold follow_user, _make_request.
  pose proof (request_attempts_sends env (mkRequest PUT (mutation_endpoint u) None)
                (range max_retries) 1 w) as H.
  by destruct (request_attempts _ _ _ _ w) as [w' [d|e]].
Qed.

Lemma unfollow_user_sends env u w :
  sends_only (eq (mkRequest DELETE (mutation_endpoint u) None)) w (unfollow_user env u w).1.
Proof.
  unfold unfollow_user, _make_request.
  pose proof (request_attempts_sends env (mkRequest DELETE (mutation_endpoint u) None)
                (range max_retries) 1 w) as H.
  by destruct (request_attempts _ _ _ _ w) as [w' [d|e]].
Qed.

Lemma process_promotion_requests fuel env rng files cfg fs fg ban j w :
  requests (trace (process_promotion fuel env rng files cfg fs fg ban j w).1.1)
  = requests (trace w).
Proof.
  unfold process_promotion. destruct (negb (promotion cfg)); [done|].
  destruct (check_and_update_promoted_users files cfg j) as [j1 [active expired]].
  destruct (0 <? count_promotion_users cfg - llen active); [|done].
  pose proof (find_users_to_promote_finds_nothing fuel env rng cfg fs ban
                (count_promotion_users cfg - llen active) 1 w) as [_ Hf].
  destruct (find_users_to_promote _ _ _ _ _ _ _ _ w) as [w1 [found|]];
    cbn [fst] in Hf; [|done].
  by case_bool_decide.
Qed.

Lemma mutation_endpoint_inj (u u' : string) :
  mutation_endpoint u = mutation_endpoint u' → u = u'.
Proof. unfold mutation_endpoint. simpl. intros [= H]. exact H. Qed.

Lemma fetch_current_state_sends fuel env self_username state w ban_follow ban_unfollow :
  sends_only (allowed self_username ban_follow ban_unfollow) w
    (fetch_current_state fuel env self_username state w).1.
Proof.
  unfold fetch_current_state, get_followers, get_following.
  pose proof (list_pages_sends env "followers" (username_or None self_username) None
                fuel 1 [] w) as H1.
  destruct (list_pages fuel env "followers" _ None 1 [] w) as [w1 r1]. cbn [fst] in H1.
  pose proof (list_pages_sends env "following" (username_or None self_username) None
                fuel 1 [] w1) as H2.
  destruct (list_pages fuel env "following" _ None 1 [] w1) as [w2 r2]. cbn [fst] in *.
  eapply sends_only_trans.
  - eapply sends_only_mono; [|exact H1]. intros r Hr. by left.
  - eapply sends_only_mono; [|exact H2]. intros r Hr. right. by left.
Qed.

Lemma process_subscriptions_sends fuel env rng files cfg state j w self_username :
  sends_only (allowed self_username (ban_list_followers state) (ban_list_following state))
    w (process_subscriptions fuel env rng files cfg state j w).1.1.
Proof.
  unfold process_subscriptions.
  assert (Hp : ∃ w1 j1 sets,
            (if promotion cfg
             then process_promotion fuel env rng files cfg (followers state)
                    (following state) (ban_list_followers state) j w
             else (w, j, Some (followers state, following state))) = (w1, j1, sets)
            ∧ requests (trace w1) = requests (trace w)).
  { destruct (promotion cfg).
    - pose proof (process_promotion_requests fuel env rng files cfg (followers state)
                    (following state) (ban_list_followers state) j w) as Hl.
      destruct (process_promotion _ _ _ _ _ _ _ _ j w) as [[w1 j1] sets].
      exists w1, j1, sets. done.
    - exists w, j, (Some (followers state, following state)). done. }
  destruct Hp as (w1 & j1 & sets & -> & Hl).
  destruct sets as [[uf ug]|]; [|by apply sends_only_same].
  set (st := mkState uf ug (ban_list_followers state) (ban_list_following state)
               (promoted_users state)).
  pose proof (process_stream_sends (batch_follow env)
                (fun u r => r = mkRequest PUT (mutation_endpoint u) None)
                (elements (get_users_to_follow st)) w1) as Hfl.
  pose proof (fun w2 => process_stream_sends (batch_unfollow env)
                (fun u r => r = mkRequest DELETE (mutation_endpoint u) None)
                (elements (get_users_to_unfollow st)) w2) as Hul.
  unfold _process_follows, _process_unfollows.
  destruct (process_stream (batch_follow env) (elements (get_users_to_follow st)) w1)
    as [w2 rf].
  specialize (Hul w2).
  destruct (process_stream (batch_unfollow env) (elements (get_users_to_unfollow st)) w2)
    as [w3 ru]. cbn [fst] in *.
  eapply sends_only_trans; [by apply sends_only_same|].
  eapply sends_only_trans.
  - eapply sends_only_mono; [|apply Hfl].
    + intros r (u & Hu & ->). right. right. left. exists u. split; [|done].
      apply elem_of_elements in Hu. unfold get_users_to_follow, st in Hu. cbn in Hu.
      set_solver.
    + intros b d w'. apply batch_sends. intros u w0.
      eapply sends_only_mono; [|apply follow_user_sends]. by intros r <-.
  - eapply sends_only_mono; [|apply Hul].
    + intros r (u & Hu & ->). right. right. right. exists u. split; [|done].
      apply elem_of_elements in Hu. unfold get_users_to_unfollow, st in Hu. cbn in Hu.
      set_solver.
    + intros b d w'. apply batch_sends. intros u w0.
      eapply sends_only_mono; [|apply unfollow_user_sends]. by intros r <-.
Qed.

(** On the wire: a run sends nothing but page requests for the two lists of
    its own account, PUT requests for accounts that are not banned from
    following and DELETE requests for accounts that are not on the
    never-unfollow list.  In particular no banned account is ever the
    target of a PUT, and no never-unfollow account of a DELETE. *)
Theorem run_sends_only_allowed_requests (fuel : nat) (env : Env) (rng : Random)
    (files : Files) (cfg : Config) (cm : ConfigManager) (state : SubscriptionState)
    (j : Journal) (w : World) (ban_follow ban_unfollow : gset string) :
  get_combined_ban_list_followers cm = Ok ban_follow →
  get_combined_ban_list_following cm = Ok ban_unfollow →
  let res := run fuel env rng files cfg (Some cm) state j w in
  ∃ new, requests (trace res.1.1) = requests (trace w) ++ new
    ∧ Forall (allowed (cfg_username cfg) ban_follow ban_unfollow) new
    ∧ (∀ u, u ∈ ban_follow → mkRequest PUT (mutation_endpoint u) None ∉ new)
    ∧ (∀ u, u ∈ ban_unfollow → mkRequest DELETE (mutation_endpoint u) None ∉ new).
Proof.
  intros Hbf Hbu res.
  assert (Hsends : sends_only (allowed (cfg_username cfg) ban_follow ban_unfollow) w
                     res.1.1).
  { unfold res, run, load_ban_lists. rewrite Hbf, Hbu. cbn [mbind Outcome_bind].
    set (state1 := mkState (followers state) (following state) ban_follow ban_unfollow
                     (promoted_users state)).
    pose proof (fetch_current_state_sends fuel env (cfg_username cfg) state1 w
                  ban_follow ban_unfollow) as Hf.
    pose proof (fetch_current_state_keeps_ban_lists fuel env (cfg_username cfg) state1 w)
      as Hkeep.
    destruct (fetch_current_state fuel env (cfg_username cfg) state1 w) as [w1 r].
    cbn [fst snd] in *. destruct r as [[st|e]|]; [|done|done].
    destruct (Hkeep st eq_refl) as (Hb1 & Hb2 & _). cbn in Hb1, Hb2.
    pose proof (process_subscriptions_sends fuel env rng files cfg st j w1
                  (cfg_username cfg)) as Hps.
    rewrite Hb1, Hb2 in Hps.
    destruct (process_subscriptions fuel env rng files cfg st j w1) as [[w2 j2] r2].
    cbn [fst] in *.
    assert (sends_only (allowed (cfg_username cfg) ban_follow ban_unfollow) w w2)
      by (by eapply sends_only_trans).
    by destruct r2. }
  destruct Hsends as (new & Hnew & Hall). exists new.
  split; [done|]. split; [done|]. rewrite Forall_forall in Hall. split.
  - intros u Hu Hin.
    destruct (Hall _ Hin) as [[p Hp] | [[p Hp] | [(u' & Hu' & Heq) | (u' & _ & Heq)]]];
      try discriminate.
    apply (f_equal endpoint) in Heq. cbn [endpoint] in Heq.
    apply mutation_endpoint_inj in Heq. by subst.
  - intros u Hu Hin.
    destruct (Hall _ Hin) as [[p Hp] | [[p Hp] | [(u' & _ & Heq) | (u' & Hu' & Heq)]]];
      try discriminate.
    apply (f_equal endpoint) in Heq. cbn [endpoint] in Heq.
    apply mutation_endpoint_inj in Heq. by subst.
Qed.

Lemma run_sends_only_allowed_requests_witness :
  let env := scripted_env [plain 200 ["amy"; "bob"]; plain 200 ["cat"; "dan"]] 0 in
  let cm := load_ban_section init (Some ["amy"]) (Some ["cat"]) None in
  let files := mkFiles (fun _ => []) (fun _ => 0) in
  let res := run 3 env first_k files (default_config "me") (Some cm) empty_state
               fresh_journal initial_world in
  ∃ new, requests (trace res.1.1) = requests (trace initial_world) ++ new
    ∧ Forall (allowed "me" {["amy"]} {["cat"]}) new
    ∧ (∀ u, u ∈ ({["amy"]} : gset string) →
            mkRequest PUT (mutation_endpoint u) None ∉ new)
    ∧ (∀ u, u ∈ ({["cat"]} : gset string) →
            mkRequest DELETE (mutation_endpoint u) None ∉ new).
Proof.
  intros env cm files.
  apply (run_sends_only_allowed_requests 3 env first_k files (default_config "me") cm
           empty_state fresh_journal initial_world {["amy"]} {["cat"]}).
  - vm_compute. reflexivity.
  - vm_compute. reflexivity.
Defined.

End RunRequests.
